(** * Diktik: the session registry and the streaming generation engine

    A shallow embedding of [src/types.ts], of the completion adapter
    [services/gemini] and of the state handling of [src/App.tsx],
    followed by the properties of the streamed-generation state machine.

    React state is modelled by explicit state passing: every
    [setSessions (prev => ...)] is a function on the session list, the
    closure variables of one [generateResponse] call are the fields of
    an [Invocation.t], and the values read from the outside world
    ([uuidv4 ()], [Date.now ()], the backend's answer) are arguments.
    An updater is applied when it is queued. React may run it later,
    at the next render; the updaters of one call are run in the order
    they were queued, and they read the accumulator when they run, so
    a later run only shows a placeholder that is further ahead. *)

From Stdlib Require Import ZArith Ascii.
From stdpp Require Import base option list sorting strings pretty.

(** ** [src/types.ts] *)

Inductive ModelId : Type :=
  | FLASH
  | PRO.

#[global] Instance ModelId_eq_dec : EqDecision ModelId.
Proof. solve_decision. Defined.

(** The wire names of the two tiers, the values of the TypeScript enum. *)
Definition modelName (m : ModelId) : string :=
  match m with
  | FLASH => "gemini-3-flash-preview"
  | PRO => "gemini-3-pro-preview"
  end.

Inductive Role : Type :=
  | User
  | Model.

#[global] Instance Role_eq_dec : EqDecision Role.
Proof. solve_decision. Defined.

Module GroundingChunk.
Record t : Type := mk { web : option (string * string) }.
End GroundingChunk.

Module GroundingMetadata.
Record t : Type := mk {
  searchEntryPoint : option string;
  groundingChunks : option (list GroundingChunk.t)
}.
End GroundingMetadata.

Module ChatMessage.
Record t : Type := mk {
  id : string;
  role : Role;
  content : string;
  timestamp : Z;
  isReasoning : option bool;
  groundingMetadata : option GroundingMetadata.t;
  isThinking : option bool
}.

(** [{ ...msg, content: c, isThinking: false }] *)
Definition withContentDone (c : string) (m : t) : t :=
  mk (id m) (role m) c (timestamp m) (isReasoning m)
     (groundingMetadata m) (Some false).

(** [{ ...msg, groundingMetadata: g }] *)
Definition withGrounding (g : GroundingMetadata.t) (m : t) : t :=
  mk (id m) (role m) (content m) (timestamp m) (isReasoning m)
     (Some g) (isThinking m).

(** [{ ...msg, content: c, timestamp: ts }] *)
Definition withContentAt (c : string) (ts : Z) (m : t) : t :=
  mk (id m) (role m) c ts (isReasoning m)
     (groundingMetadata m) (isThinking m).
End ChatMessage.

Module ChatSession.
Record t : Type := mk {
  id : string;
  title : string;
  messages : list ChatMessage.t;
  updatedAt : Z
}.

(** [{ ...s, messages: ms }] *)
Definition withMessages (ms : list ChatMessage.t) (s : t) : t :=
  mk (id s) (title s) ms (updatedAt s).

(** [{ ...session, messages: ms, updatedAt: now }] *)
Definition withMessagesAt (ms : list ChatMessage.t) (now : Z) (s : t) : t :=
  mk (id s) (title s) ms now.

(** [{ ...session, title }] *)
Definition withTitle (ttl : string) (s : t) : t :=
  mk (id s) ttl (messages s) (updatedAt s).
End ChatSession.

(** The state of [App]: the fields of [AppState] together with the
    [isLoading] flag kept next to them. *)
Module AppState.
Record t : Type := mk {
  currentModel : ModelId;
  enableSearch : bool;
  enableThinking : bool;
  sessions : list ChatSession.t;
  currentSessionId : option string;
  isLoading : bool
}.

Definition setSessions (f : list ChatSession.t → list ChatSession.t) (st : t) : t :=
  mk (currentModel st) (enableSearch st) (enableThinking st)
     (f (sessions st)) (currentSessionId st) (isLoading st).

Definition setCurrentSessionId (c : option string) (st : t) : t :=
  mk (currentModel st) (enableSearch st) (enableThinking st)
     (sessions st) c (isLoading st).

Definition setIsLoading (b : bool) (st : t) : t :=
  mk (currentModel st) (enableSearch st) (enableThinking st)
     (sessions st) (currentSessionId st) b.
End AppState.

(** ** JavaScript helpers *)

(** [arr.find (p)] and [arr.findIndex (p)]: the first element that
    satisfies [p], and its index ([None] stands for [undefined] and [-1]). *)
Definition find {A} (P : A → Prop) `{∀ x, Decision (P x)} (l : list A) : option A :=
  snd <$> list_find P l.

Definition findIndex {A} (P : A → Prop) `{∀ x, Decision (P x)} (l : list A) : option nat :=
  fst <$> list_find P l.

(** Truthiness of a [string | null | undefined] value: only a non-empty
    string is truthy. *)
Definition truthy (o : option string) : option string :=
  match o with
  | Some (String a r) => Some (String a r)
  | _ => None
  end.

(** [s.id === sid] as a predicate on sessions, [msg.id === mid] on messages. *)
Definition hasSessionId (sid : string) (s : ChatSession.t) : Prop :=
  ChatSession.id s = sid.

Definition hasMessageId (mid : string) (m : ChatMessage.t) : Prop :=
  ChatMessage.id m = mid.

#[global] Instance hasSessionId_dec sid s : Decision (hasSessionId sid s).
Proof. unfold hasSessionId. apply _. Defined.

#[global] Instance hasMessageId_dec mid m : Decision (hasMessageId mid m).
Proof. unfold hasMessageId. apply _. Defined.

(** [accumulatedText += chunkText] over a whole sequence of deltas. *)
Definition concatDeltas (ds : list string) : string :=
  foldr String.append EmptyString ds.

(** ** The completion adapter *)

Module Gemini.

(** One entry of the [contents] array sent to the backend:
    [{ role, parts: [{ text }] }]. *)
Record Content : Type := mkContent {
  role : Role;
  parts : list string
}.

Definition formatHistory (messages : list ChatMessage.t) : list Content :=
  (λ msg, mkContent (ChatMessage.role msg) [ChatMessage.content msg]) <$> messages.

Record StreamOptions : Type := mkOptions {
  model : ModelId;
  history : list ChatMessage.t;
  message : string;
  enableSearch : bool;
  enableThinking : bool
}.

Inductive Tool : Type :=
  | googleSearch.

Record ThinkingConfig : Type := mkThinking { thinkingBudget : Z }.

(** The argument of [ai.models.generateContentStream]. *)
Record Request : Type := mkRequest {
  reqModel : string;
  contents : list Content;
  tools : option (list Tool);
  thinkingConfig : option ThinkingConfig
}.

(** One chunk of the backend stream, reduced to what the adapter
    reads of it: [c.text] and [c.candidates?.[0]?.groundingMetadata]. *)
Record Chunk : Type := mkChunk {
  text : option string;
  metadata : option GroundingMetadata.t
}.

(** What the backend does with one request: the chunks it yields, and
    whether the stream then ends normally or throws. A request that is
    rejected at once has no chunks and [failed = true]. *)
Record Response : Type := mkResponse {
  chunks : list Chunk;
  failed : bool
}.

(** The callbacks the adapter makes, in order. *)
Inductive Event : Type :=
  | TextDelta (chunkText : string)
  | GroundingUpdate (md : GroundingMetadata.t).

Inductive Outcome : Type :=
  | Resolved
  | Rejected.

Definition thinkingConfigOf (m : ModelId) (enable : bool) : option ThinkingConfig :=
  if enable && bool_decide (m = PRO) then Some (mkThinking 16000%Z)
  else if negb enable && bool_decide (m = PRO) then Some (mkThinking 0%Z)
  else None.

Definition buildRequest (o : StreamOptions) : Request :=
  let contents := formatHistory (history o) ++ [mkContent User [message o]] in
  let tools := if enableSearch o then [googleSearch] else [] in
  mkRequest (modelName (model o)) contents
    (if bool_decide (0 < length tools) then Some tools else None)
    (thinkingConfigOf (model o) (enableThinking o)).

(** The body of the [for await] loop for one chunk. *)
Definition chunkEvents (c : Chunk) : list Event :=
  (match truthy (text c) with
   | Some t => [TextDelta t]
   | None => []
   end) ++
  (match metadata c with
   | Some md => [GroundingUpdate md]
   | None => []
   end).

(** [streamGeminiResponse]: the callbacks made while the backend's
    stream is consumed, and how the returned promise settles (an
    error is logged and thrown again). *)
Definition streamGeminiResponse (o : StreamOptions) (backend : Request → Response)
  : list Event * Outcome :=
  let result := backend (buildRequest o) in
  (chunks result ≫= chunkEvents, if failed result then Rejected else Resolved).

(** The text deltas among a sequence of callbacks. *)
Definition deltas (evs : list Event) : list string :=
  evs ≫= λ e, match e with TextDelta t => [t] | GroundingUpdate _ => [] end.

End Gemini.

(** ** [src/App.tsx]: the session registry *)

(** A browser [File] handed over by the composer. *)
Module File.
Record t : Type := mk {
  name : string;
  data : string
}.
End File.

Module App.

Definition newChatTitle : string := "New Chat".

(** [createNewSession]; [uuid] and [now] are the values that [uuidv4 ()]
    and [Date.now ()] return. *)
Definition createNewSession (uuid : string) (now : Z) (st : AppState.t) : AppState.t :=
  let newSession := ChatSession.mk uuid newChatTitle [] now in
  AppState.setCurrentSessionId (Some uuid)
    (AppState.setSessions (λ prev, newSession :: prev) st).

(** [deleteSession], without the restoration effect that follows it. *)
Definition deleteSession (sessionId : string) (st : AppState.t) : AppState.t :=
  let st' :=
    AppState.setSessions (filter (λ s, ChatSession.id s ≠ sessionId)) st in
  if bool_decide (AppState.currentSessionId st = Some sessionId)
  then AppState.setCurrentSessionId None st'
  else st'.

(** The body of the effect "ensure there's always at least one session". *)
Definition restoreEffect (uuid : string) (now : Z) (st : AppState.t) : AppState.t :=
  if bool_decide (length (AppState.sessions st) = 0)
  then createNewSession uuid now st
  else match truthy (AppState.currentSessionId st) with
       | Some _ => st
       | None =>
           match AppState.sessions st !! 0 with
           | Some s => AppState.setCurrentSessionId (Some (ChatSession.id s)) st
           | None => st
           end
       end.

(** The effect depends on [sessions.length] only: after a render it
    runs when the length differs from the one of the render before. *)
Definition afterRender (prevLength : nat) (uuid : string) (now : Z)
    (st : AppState.t) : AppState.t :=
  if bool_decide (length (AppState.sessions st) = prevLength) then st
  else restoreEffect uuid now st.

(** A click on a delete button, followed by the effect of the render
    it causes. *)
Definition deleteSessionAndRestore (uuid : string) (now : Z) (sessionId : string)
    (st : AppState.t) : AppState.t :=
  afterRender (length (AppState.sessions st)) uuid now (deleteSession sessionId st).

(** [sessions.find (s => s.id === currentSessionId) || sessions[0]] *)
Definition currentSession (st : AppState.t) : option ChatSession.t :=
  match AppState.currentSessionId st ≫= λ c, find (hasSessionId c) (AppState.sessions st) with
  | Some s => Some s
  | None => AppState.sessions st !! 0
  end.

Definition updateSessionMessages (sessionId : string)
    (newMessages : list ChatMessage.t) (now : Z) (st : AppState.t) : AppState.t :=
  AppState.setSessions
    (fmap (λ session,
       if decide (ChatSession.id session = sessionId)
       then ChatSession.withMessagesAt newMessages now session
       else session)) st.

Definition updateSessionTitle (sessionId : string) (ttl : string)
    (st : AppState.t) : AppState.t :=
  AppState.setSessions
    (fmap (λ session,
       if decide (ChatSession.id session = sessionId)
       then ChatSession.withTitle ttl session
       else session)) st.

(** The order of [(a, b) => b.updatedAt - a.updatedAt]. *)
Definition newerFirst (a b : ChatSession.t) : Prop :=
  (ChatSession.updatedAt b ≤ ChatSession.updatedAt a)%Z.

#[global] Instance newerFirst_dec a b : Decision (newerFirst a b).
Proof. unfold newerFirst. apply _. Defined.

(** [sortedSessions]: the stored list is never kept sorted, the
    sidebar sorts a copy by [updatedAt], newest first. *)
Definition sortedSessions (st : AppState.t) : list ChatSession.t :=
  merge_sort newerFirst (AppState.sessions st).

(** ** [src/App.tsx]: the generation engine *)

Definition errorNotice : string :=
  "Sorry, I encountered an error processing your request. Please try again.".

(** The variables one call of [generateResponse] closes over: the
    session id and the placeholder id read when the call starts, and
    the two accumulators of its [try] block. *)
Module Invocation.
Record t : Type := mk {
  currentSessionId : string;
  botMsgId : string;
  accumulatedText : string;
  accumulatedMetadata : option GroundingMetadata.t
}.
End Invocation.

(** [session.messages.map (msg => msg.id === botMsgId ? f (msg) : msg)] *)
Definition replaceMessage (botMsgId : string)
    (f : ChatMessage.t → ChatMessage.t)
    (msgs : list ChatMessage.t) : list ChatMessage.t :=
  (λ msg, if decide (ChatMessage.id msg = botMsgId) then f msg else msg) <$> msgs.

(** The updater shared by [onChunk], [onGrounding] and the [catch]
    block: look the session up by the captured id, map [f] over the
    messages that carry the placeholder's id, and write the new list
    into every session with that id. *)
Definition patchPlaceholder (sid botMsgId : string)
    (f : ChatMessage.t → ChatMessage.t)
    (prev : list ChatSession.t) : list ChatSession.t :=
  match find (hasSessionId sid) prev with
  | None => prev
  | Some session =>
      let newMsgs := replaceMessage botMsgId f (ChatSession.messages session) in
      (λ s, if decide (ChatSession.id s = sid)
            then ChatSession.withMessages newMsgs s else s) <$> prev
  end.

Definition onChunk (chunkText : string) (inv : Invocation.t) (st : AppState.t)
  : Invocation.t * AppState.t :=
  let accumulatedText := Invocation.accumulatedText inv +:+ chunkText in
  (Invocation.mk (Invocation.currentSessionId inv) (Invocation.botMsgId inv)
     accumulatedText (Invocation.accumulatedMetadata inv),
   AppState.setSessions
     (patchPlaceholder (Invocation.currentSessionId inv) (Invocation.botMsgId inv)
        (ChatMessage.withContentDone accumulatedText)) st).

Definition onGrounding (md : GroundingMetadata.t) (inv : Invocation.t) (st : AppState.t)
  : Invocation.t * AppState.t :=
  (Invocation.mk (Invocation.currentSessionId inv) (Invocation.botMsgId inv)
     (Invocation.accumulatedText inv) (Some md),
   AppState.setSessions
     (patchPlaceholder (Invocation.currentSessionId inv) (Invocation.botMsgId inv)
        (ChatMessage.withGrounding md)) st).

(** The [catch] block. *)
Definition onError (inv : Invocation.t) (st : AppState.t) : AppState.t :=
  AppState.setSessions
    (patchPlaceholder (Invocation.currentSessionId inv) (Invocation.botMsgId inv)
       (ChatMessage.withContentDone errorNotice)) st.

(** Lines 88-102: the guard, the placeholder, the first write and the
    busy flag. [None] is the early [return]. *)
Definition start (botMsgId : string) (tMsg tUpd : Z)
    (messages : list ChatMessage.t) (st : AppState.t)
  : option (Invocation.t * AppState.t) :=
  match truthy (AppState.currentSessionId st) with
  | None => None
  | Some sid =>
      let botPlaceholder :=
        ChatMessage.mk botMsgId Model EmptyString tMsg
          (Some (bool_decide (AppState.currentModel st = PRO)
                 && AppState.enableThinking st))
          None (Some true) in
      let updatedMessages := messages ++ [botPlaceholder] in
      Some (Invocation.mk sid botMsgId EmptyString None,
            AppState.setIsLoading true
              (updateSessionMessages sid updatedMessages tUpd st))
  end.

(** One callback from the adapter. *)
Definition deliver (p : Invocation.t * AppState.t) (e : Gemini.Event)
  : Invocation.t * AppState.t :=
  match e with
  | Gemini.TextDelta chunkText => onChunk chunkText p.1 p.2
  | Gemini.GroundingUpdate md => onGrounding md p.1 p.2
  end.

(** How the [await] ends: the [catch] block on rejection, then
    [finally]. *)
Definition settle (o : Gemini.Outcome) (p : Invocation.t * AppState.t) : AppState.t :=
  AppState.setIsLoading false
    (match o with
     | Gemini.Rejected => onError p.1 p.2
     | Gemini.Resolved => p.2
     end).

(** The application together with what it has asked of the outside:
    the calls made to [streamGeminiResponse], in order, and the
    [generateTitle] requests whose answers are still to come (session
    id and prompt text). *)
Module World.
Record t : Type := mk {
  app : AppState.t;
  adapterCalls : list Gemini.StreamOptions;
  titleRequests : list (string * string)
}.
End World.

(** The argument of the one [streamGeminiResponse] call, without its
    two callbacks: the settings are those of the render the call was
    made from. *)
Definition streamOptions (st : AppState.t) (newHistory : list ChatMessage.t)
    (currentText : string) : Gemini.StreamOptions :=
  Gemini.mkOptions (AppState.currentModel st) newHistory currentText
    (AppState.enableSearch st) (AppState.enableThinking st).

(** [generateResponse], run from its first line to its [finally]
    against the backend [backend]. *)
Definition generateResponse (backend : Gemini.Request → Gemini.Response)
    (botMsgId : string) (tMsg tUpd : Z)
    (messages newHistory : list ChatMessage.t) (currentText : string)
    (w : World.t) : World.t :=
  match start botMsgId tMsg tUpd messages (World.app w) with
  | None => w
  | Some p =>
      let opts := streamOptions (World.app w) newHistory currentText in
      let r := Gemini.streamGeminiResponse opts backend in
      World.mk (settle r.2 (foldl deliver p r.1))
        (World.adapterCalls w ++ [opts]) (World.titleRequests w)
  end.

Definition newline : string := String "010"%char EmptyString.

(** The template literal of [handleSendMessage]. *)
Definition attachmentNote (text : string) (n : nat) : string :=
  text +:+ newline +:+ newline +:+ "[Attached " +:+ pretty n +:+ " file(s)]".

Definition displayContentOf (text : string) (files : list File.t) : string :=
  if bool_decide (0 < length files) then attachmentNote text (length files)
  else text.

(** [text || "Attachment"] *)
Definition titlePrompt (text : string) : string :=
  match text with
  | EmptyString => "Attachment"
  | _ => text
  end.

Definition handleSendMessage (backend : Gemini.Request → Gemini.Response)
    (userMsgId : string) (tUser : Z) (botMsgId : string) (tMsg tUpd : Z)
    (text : string) (files : list File.t) (w : World.t) : World.t :=
  match currentSession (World.app w) with
  | None => w
  | Some cs =>
      let displayContent := displayContentOf text files in
      let userMsg :=
        ChatMessage.mk userMsgId User displayContent tUser None None None in
      let w1 :=
        if bool_decide (length (ChatSession.messages cs) = 0)
        then World.mk (World.app w) (World.adapterCalls w)
               (World.titleRequests w ++ [(ChatSession.id cs, titlePrompt text)])
        else w in
      let newHistory := ChatSession.messages cs in
      let messagesWithUser := ChatSession.messages cs ++ [userMsg] in
      generateResponse backend botMsgId tMsg tUpd
        messagesWithUser newHistory displayContent w1
  end.

Definition handleEditMessage (backend : Gemini.Request → Gemini.Response)
    (tEdit : Z) (botMsgId : string) (tMsg tUpd : Z)
    (messageId newContent : string) (w : World.t) : World.t :=
  match currentSession (World.app w) with
  | None => w
  | Some cs =>
      match findIndex (hasMessageId messageId) (ChatSession.messages cs) with
      | None => w
      | Some msgIndex =>
          let historyBeforeEdit := take msgIndex (ChatSession.messages cs) in
          match ChatSession.messages cs !! msgIndex with
          | None => w
          | Some original =>
              let updatedMsg := ChatMessage.withContentAt newContent tEdit original in
              let messagesWithUpdated := historyBeforeEdit ++ [updatedMsg] in
              generateResponse backend botMsgId tMsg tUpd
                messagesWithUpdated historyBeforeEdit newContent w
          end
      end
  end.

(** The placeholder of an invocation as the registry holds it: the
    message with the placeholder's id in the session with the
    captured id. *)
Definition placeholder (sid botMsgId : string) (st : AppState.t) : option ChatMessage.t :=
  find (hasSessionId sid) (AppState.sessions st) ≫= λ s,
  find (hasMessageId botMsgId) (ChatSession.messages s).

End App.

(** ** What is observed of an invocation *)

Import App.

(** An updater of a message that leaves its id alone. *)
Definition keepsId (f : ChatMessage.t → ChatMessage.t) : Prop :=
  ∀ m, ChatMessage.id (f m) = ChatMessage.id m.

(** The placeholder as [start] builds it. *)
Definition placeholderAtStart (botMsgId : string) (tMsg : Z) (st : AppState.t)
  : ChatMessage.t :=
  ChatMessage.mk botMsgId Model EmptyString tMsg
    (Some (bool_decide (AppState.currentModel st = PRO) && AppState.enableThinking st))
    None (Some true).

(** The id [botMsgId] is not the id of a message of [msgs]: what
    [uuidv4] gives for a list written before the call. *)
Definition freshFor (botMsgId : string) (msgs : list ChatMessage.t) : Prop :=
  Forall (λ m, ¬ hasMessageId botMsgId m) msgs.

(** The registry holds a session with the id [sid]. *)
Definition holdsSession (sid : string) (st : AppState.t) : Prop :=
  is_Some (find (hasSessionId sid) (AppState.sessions st)).

(** The state [start] leaves behind. *)
Definition startState (sid botMsgId : string) (tMsg tUpd : Z)
    (msgs : list ChatMessage.t) (st : AppState.t) : AppState.t :=
  AppState.setIsLoading true
    (updateSessionMessages sid
       (msgs ++ [placeholderAtStart botMsgId tMsg st]) tUpd st).

(** What one callback does to the message it patches; [acc] is the
    accumulator before the callback. *)
Definition patchOf (acc : string) (e : Gemini.Event) : ChatMessage.t → ChatMessage.t :=
  match e with
  | Gemini.TextDelta chunkText => ChatMessage.withContentDone (acc +:+ chunkText)
  | Gemini.GroundingUpdate md => ChatMessage.withGrounding md
  end.

(** The accumulator [accumulatedText] after one callback. *)
Definition accAfter (acc : string) (e : Gemini.Event) : string :=
  match e with
  | Gemini.TextDelta chunkText => acc +:+ chunkText
  | Gemini.GroundingUpdate _ => acc
  end.

(** The metadata of the last [onGrounding] callback among [evs]. *)
Definition lastGrounding (evs : list Gemini.Event) : option GroundingMetadata.t :=
  last (evs ≫= λ e, match e with
                    | Gemini.TextDelta _ => []
                    | Gemini.GroundingUpdate md => [md]
                    end).

(** The state of the placeholder after the callbacks [evs], read off
    the callbacks alone: [m] is the placeholder before them. *)
Definition placeholderAfter (evs : list Gemini.Event) (m : ChatMessage.t)
  : ChatMessage.t :=
  ChatMessage.mk (ChatMessage.id m) (ChatMessage.role m)
    (match Gemini.deltas evs with
     | [] => ChatMessage.content m
     | ds => concatDeltas ds
     end)
    (ChatMessage.timestamp m) (ChatMessage.isReasoning m)
    (match lastGrounding evs with
     | Some md => Some md
     | None => ChatMessage.groundingMetadata m
     end)
    (match Gemini.deltas evs with
     | [] => ChatMessage.isThinking m
     | _ => Some false
     end).

(** The callbacks and the outcome of the one adapter call of an
    invocation started in the world [w]. *)
Definition callbacksOf (backend : Gemini.Request → Gemini.Response)
    (w : World.t) (newHistory : list ChatMessage.t)
    (currentText : string) : list Gemini.Event :=
  (Gemini.streamGeminiResponse
     (streamOptions (World.app w) newHistory currentText) backend).1.

Definition outcomeOf (backend : Gemini.Request → Gemini.Response)
    (w : World.t) (newHistory : list ChatMessage.t)
    (currentText : string) : Gemini.Outcome :=
  (Gemini.streamGeminiResponse
     (streamOptions (World.app w) newHistory currentText) backend).2.

(** The invocation record and the state a call starts from. *)
Definition startOf (sid botMsgId : string) (tMsg tUpd : Z)
    (msgs : list ChatMessage.t) (st : AppState.t) : Invocation.t * AppState.t :=
  (Invocation.mk sid botMsgId EmptyString None,
   startState sid botMsgId tMsg tUpd msgs st).

(** ** A call in flight among other events *)

(** What the user or the title request can do to the state between two
    callbacks of a call in flight: a click on a chat of the sidebar, a
    click on "New Chat", the answer of [generateTitle]. *)
Inductive Background : Type :=
  | Select (sessionId : string)
  | NewChat (uuid : string) (now : Z)
  | TitleArrived (sessionId ttl : string).

Definition background (b : Background) (st : AppState.t) : AppState.t :=
  match b with
  | Select sessionId => AppState.setCurrentSessionId (Some sessionId) st
  | NewChat uuid now => createNewSession uuid now st
  | TitleArrived sessionId ttl => updateSessionTitle sessionId ttl st
  end.

Inductive Tick : Type :=
  | Callback (e : Gemini.Event)
  | Meanwhile (b : Background).

Definition tick (p : Invocation.t * AppState.t) (t : Tick) : Invocation.t * AppState.t :=
  match t with
  | Callback e => deliver p e
  | Meanwhile b => (p.1, background b p.2)
  end.

(** The callbacks among the ticks, in order. *)
Definition callbacksIn (ts : list Tick) : list Gemini.Event :=
  ts ≫= λ t, match t with Callback e => [e] | Meanwhile _ => [] end.

(** No chat created meanwhile takes the id [sid]. *)
Definition sparesId (sid : string) (t : Tick) : Prop :=
  match t with
  | Meanwhile (NewChat uuid _) => uuid ≠ sid
  | _ => True
  end.

(** ** [services/gemini]: [generateTitle] *)

Module GeminiTitle.

(** The argument of [ai.models.generateContent]. *)
Record Request : Type := mkRequest {
  model : string;
  contents : string
}.

(** What the backend does with the request: it answers, with or
    without text, or the call throws. *)
Inductive Answer : Type :=
  | Text (t : option string)
  | Throws.

Definition dquote : string := String "034"%char EmptyString.

Definition prompt (firstMessage : string) : string :=
  "Generate a very short, concise title (max 5 words) for a chat that starts with: "
  +:+ dquote +:+ firstMessage +:+ dquote +:+ ". Do not use quotes.".

Definition generateTitle (backend : Request → Answer) (firstMessage : string) : string :=
  match backend (mkRequest "gemini-3-flash-preview" (prompt firstMessage)) with
  | Text t =>
      match truthy t with
      | Some s => s
      | None => "New Chat"
      end
  | Throws => "New Chat"
  end.

End GeminiTitle.

(** The continuation [.then (title => updateSessionTitle (currentSession.id, title))]
    of a title request logged by [handleSendMessage]. *)
Definition titleArrives (backend : GeminiTitle.Request → GeminiTitle.Answer)
    (request : string * string) (st : AppState.t) : AppState.t :=
  updateSessionTitle request.1 (GeminiTitle.generateTitle backend request.2) st.

(** ** [src/components/Composer.tsx] *)

Module Composer.

Record t : Type := mk {
  input : string;
  attachments : list File.t;
  interimTranscript : string;
  isListening : bool
}.


(** [prev.filter ((_, i) => i !== index)] *)
Definition removeAttachment (index : nat) (c : t) : t :=
  mk (input c)
    (snd <$> filter (λ p, p.1 ≠ index) (imap (λ i file, (i, file)) (attachments c)))
    (interimTranscript c) (isListening c).

(** [handleSend]: the call of [onSend], if one is made, and the new
    state. [trim] is [String.prototype.trim], [isLoading] the prop. *)
Definition handleSend (trim : string → string) (isLoading : bool) (c : t)
  : option (string * list File.t) * t :=
  if (bool_decide (trim (input c) = EmptyString)
      && bool_decide (length (attachments c) = 0)) || isLoading
  then (None, c)
  else (Some (input c, attachments c),
        mk EmptyString [] (interimTranscript c) (isListening c)).

(** One entry of [event.results], with the transcript of its first
    alternative. *)
Record SpeechResult : Type := mkResult {
  isFinal : bool;
  transcript : string
}.

(** [prev.endsWith (' ')] *)
Fixpoint endsWithSpace (s : string) : bool :=
  match s with
  | EmptyString => false
  | String a EmptyString => bool_decide (a = " "%char)
  | String _ r => endsWithSpace r
  end.

(** The body of the loop of [recognition.onresult]; the pair is
    [(finalTranscript, interim)]. *)
Definition collect (acc : string * string) (r : SpeechResult) : string * string :=
  if isFinal r then (acc.1 +:+ transcript r, acc.2)
  else (acc.1, acc.2 +:+ transcript r).

Definition onresult (resultIndex : nat) (results : list SpeechResult) (c : t) : t :=
  let acc := foldl collect (EmptyString, EmptyString) (drop resultIndex results) in
  match acc.1 with
  | EmptyString => mk (input c) (attachments c) acc.2 (isListening c)
  | finalTranscript =>
      mk (input c
          +:+ (if bool_decide (0 < String.length (input c))
                  && negb (endsWithSpace (input c))
               then " " else EmptyString)
          +:+ finalTranscript)
        (attachments c) EmptyString (isListening c)
  end.

End Composer.

(** [<Composer onSend={handleSendMessage} isLoading={isLoading} ... />]:
    a click on the send button, with the handler of [App] behind it. *)
Definition sendFromComposer (trim : string → string)
    (backend : Gemini.Request → Gemini.Response)
    (userMsgId : string) (tUser : Z) (botMsgId : string) (tMsg tUpd : Z)
    (c : Composer.t) (w : World.t) : Composer.t * World.t :=
  match Composer.handleSend trim (AppState.isLoading (World.app w)) c with
  | (None, c') => (c', w)
  | (Some (text, files), c') =>
      (c', handleSendMessage backend userMsgId tUser botMsgId tMsg tUpd text files w)
  end.

(** ** [src/components/ImageEditor.tsx]: the edit history *)

Module ImageEditor.

Inductive AspectRatio : Type :=
  | original
  | ratio_1_1
  | ratio_16_9
  | ratio_4_3.

#[global] Instance AspectRatio_eq_dec : EqDecision AspectRatio.
Proof. solve_decision. Defined.

Record EditorState : Type := mkState {
  rotation : Z;
  brightness : Z;
  contrast : Z;
  aspectRatio : AspectRatio
}.

#[global] Instance EditorState_eq_dec : EqDecision EditorState.
Proof. solve_decision. Defined.

(** The state of the component that the history handlers read and
    write: the visual state, the history and the index into it. *)
Record t : Type := mk {
  current : EditorState;
  history : list EditorState;
  historyIndex : nat
}.

Definition initial : t :=
  mk (mkState 0 100 100 original) [mkState 0 100 100 original] 0.

Definition pushToHistory (newState : EditorState) (e : t) : t :=
  let newHistory := take (historyIndex e + 1) (history e) ++ [newState] in
  mk (current e) newHistory (length newHistory - 1).

(** [handleUndo] and [handleRedo]; [None] is the [TypeError] of reading
    a field of [history[newIndex]] when that is [undefined]. *)
Definition handleUndo (e : t) : option t :=
  if bool_decide (0 < historyIndex e) then
    let newIndex := historyIndex e - 1 in
    match history e !! newIndex with
    | Some state => Some (mk state (history e) newIndex)
    | None => None
    end
  else Some e.

Definition handleRedo (e : t) : option t :=
  if bool_decide (Z.of_nat (historyIndex e) < Z.of_nat (length (history e)) - 1)%Z then
    let newIndex := historyIndex e + 1 in
    match history e !! newIndex with
    | Some state => Some (mk state (history e) newIndex)
    | None => None
    end
  else Some e.

Definition rotate (e : t) : t :=
  let newRot := Z.rem (rotation (current e) + 90) 360 in
  let newState :=
    mkState newRot (brightness (current e)) (contrast (current e))
      (aspectRatio (current e)) in
  pushToHistory newState (mk newState (history e) (historyIndex e)).

Definition changeAspectRatio (ratio : AspectRatio) (e : t) : t :=
  let newState :=
    mkState (rotation (current e)) (brightness (current e)) (contrast (current e))
      ratio in
  pushToHistory newState (mk newState (history e) (historyIndex e)).

(** The sliders: [setBrightness] and [setContrast] on change, and
    [handleSliderCommit] on release. *)
Definition setBrightness (v : Z) (e : t) : t :=
  mk (mkState (rotation (current e)) v (contrast (current e)) (aspectRatio (current e)))
    (history e) (historyIndex e).

Definition setContrast (v : Z) (e : t) : t :=
  mk (mkState (rotation (current e)) (brightness (current e)) v (aspectRatio (current e)))
    (history e) (historyIndex e).

Definition handleSliderCommit (e : t) : option t :=
  match history e !! historyIndex e with
  | None => None
  | Some currentHist =>
      if bool_decide (brightness currentHist ≠ brightness (current e))
         || bool_decide (contrast currentHist ≠ contrast (current e))
      then Some (pushToHistory (current e) e)
      else Some e
  end.

(** What the user can do in the editor. *)
Inductive Action : Type :=
  | Rotate
  | ChangeAspectRatio (ratio : AspectRatio)
  | SlideBrightness (v : Z)
  | SlideContrast (v : Z)
  | SliderCommit
  | Undo
  | Redo.

Definition step (a : Action) (e : t) : option t :=
  match a with
  | Rotate => Some (rotate e)
  | ChangeAspectRatio ratio => Some (changeAspectRatio ratio e)
  | SlideBrightness v => Some (setBrightness v e)
  | SlideContrast v => Some (setContrast v e)
  | SliderCommit => handleSliderCommit e
  | Undo => handleUndo e
  | Redo => handleRedo e
  end.

(** A sequence of actions from a state; [None] once a handler has
    thrown. *)
Definition run (actions : list Action) (e : t) : option t :=
  foldl (λ oe a, oe ≫= step a) (Some e) actions.

(** The index points into the history, the entry there has the
    rotation and the aspect ratio on screen, and every rotation is one
    of 0, 90, 180, 270. *)
Definition quarter (r : Z) : Prop := r = 0%Z ∨ r = 90%Z ∨ r = 180%Z ∨ r = 270%Z.

Definition wellFormed (e : t) : Prop :=
  (∃ h, history e !! historyIndex e = Some h
        ∧ rotation h = rotation (current e)
        ∧ aspectRatio h = aspectRatio (current e))
  ∧ quarter (rotation (current e))
  ∧ Forall (λ h, quarter (rotation h)) (history e).

(** Nothing on screen is uncommitted: the entry at the index is the
    visual state. *)
Definition committed (e : t) : Prop :=
  history e !! historyIndex e = Some (current e).

End ImageEditor.

(** ** [ChatMessages]: the sources of a grounded answer *)

Module GroundingSources.

(** [chunk.web?.uri] *)
Definition uriOf (chunk : GroundingChunk.t) : option string :=
  fst <$> GroundingChunk.web chunk.

Definition sameUri (chunk c : GroundingChunk.t) : Prop := uriOf c = uriOf chunk.

#[global] Instance sameUri_dec chunk c : Decision (sameUri chunk c).
Proof. unfold sameUri. apply _. Defined.

(** [chunks.filter ((chunk, index, self) =>
       index === self.findIndex ((c) => c.web?.uri === chunk.web?.uri))] *)
Definition uniqueChunks (chunks : list GroundingChunk.t) : list GroundingChunk.t :=
  snd <$> filter (λ p, findIndex (sameUri p.2) chunks = Some p.1)
            (imap (λ index chunk, (index, chunk)) chunks).

(** The chunks of [l] whose uri is not among [seen] and not that of an
    earlier chunk of [l]. *)
Fixpoint firstOccurrences (seen : list (option string)) (l : list GroundingChunk.t)
  : list GroundingChunk.t :=
  match l with
  | [] => []
  | c :: l =>
      if decide (uriOf c ∈ seen) then firstOccurrences seen l
      else c :: firstOccurrences (uriOf c :: seen) l
  end.

End GroundingSources.

(** ** Concrete registries and backends *)

(** The state of a first visit: nothing stored, nothing selected. *)
Definition emptyApp : AppState.t :=
  AppState.mk FLASH false false [] None false.

(** The first render's effect has created the session [s1]. *)
Definition firstVisit : World.t :=
  World.mk (restoreEffect "s1" 10 emptyApp) [] [].

Definition textChunk (t : string) : Gemini.Chunk :=
  Gemini.mkChunk (Some t) None.

(** A backend that answers every request with the chunks [cs] and then
    ends the stream, or throws when [failed] is set. *)
Definition answering (cs : list Gemini.Chunk) (failed : bool)
  : Gemini.Request → Gemini.Response :=
  λ _, Gemini.mkResponse cs failed.

(** Three chats opened one after the other, then a message sent in the
    oldest one, then the newest one selected again. *)
Definition threeChats : World.t :=
  let st3 :=
    createNewSession "C" 2 (createNewSession "B" 1 (createNewSession "A" 0 emptyApp)) in
  let w :=
    handleSendMessage (answering [textChunk "hello"] false) "u1" 3 "b1" 4 5
      "hi" [] (World.mk (AppState.setCurrentSessionId (Some "A") st3) [] []) in
  World.mk (AppState.setCurrentSessionId (Some "C") (World.app w))
    (World.adapterCalls w) (World.titleRequests w).

(** The session the sidebar lists first: the most recently updated one. *)
Definition mostRecentlyUpdated (st : AppState.t) : option ChatSession.t :=
  sortedSessions st !! 0.

(** The text [t] occurs in the content [c]. *)
Definition visibleIn (t c : string) : Prop :=
  is_Some (String.index 0 t c).

(** The user message "hi" of the scenarios below, and the list shown
    once it is sent in an empty chat. *)
Definition hiMessage : ChatMessage.t :=
  ChatMessage.mk "u1" User "hi" 11 None None None.

(** A backend that streams "Hel" and "lo" and ends; one that streams
    "Hel" and then throws; one whose stream ends without any chunk. *)
Definition helloBackend : Gemini.Request → Gemini.Response :=
  answering [textChunk "Hel"; textChunk "lo"] false.

Definition brokenBackend : Gemini.Request → Gemini.Response :=
  answering [textChunk "Hel"] true.

Definition silentBackend : Gemini.Request → Gemini.Response :=
  answering [] false.

(** The chat [s1] after "hi" has been answered by "Hello". *)
Definition helloReply : ChatMessage.t :=
  ChatMessage.mk "b1" Model "Hello" 12 (Some false) None (Some false).

Definition helloSession : ChatSession.t :=
  ChatSession.mk "s1" "New Chat" [hiMessage; helloReply] 13.

Definition afterHello : World.t :=
  handleSendMessage helloBackend "u1" 11 "b1" 12 13 "hi" [] firstVisit.

(** Two chats opened one after the other; the newer one is selected. *)
Definition twoChats : AppState.t :=
  createNewSession "B" 1 (createNewSession "A" 0 emptyApp).

(** ** The selection of the registry *)

(** Every session has a non-empty id, and the current id is the id of a
    session of the list. *)
Definition registryOk (st : AppState.t) : Prop :=
  Forall (λ s, ChatSession.id s ≠ EmptyString) (AppState.sessions st)
  ∧ ∃ s, s ∈ AppState.sessions st
         ∧ AppState.currentSessionId st = Some (ChatSession.id s).

(** The state [App] starts from: the sessions read from the store,
    nothing selected, the default settings. *)
Definition loaded (stored : list ChatSession.t) : AppState.t :=
  AppState.mk FLASH false false stored None false.

(** The reply a call leaves in place of its placeholder. *)
Definition replyOf (o : Gemini.Outcome) (evs : list Gemini.Event) (ph : ChatMessage.t)
  : ChatMessage.t :=
  match o with
  | Gemini.Resolved => placeholderAfter evs ph
  | Gemini.Rejected => ChatMessage.withContentDone errorNotice (placeholderAfter evs ph)
  end.

(** The session of [firstVisit]. *)
Definition firstSession : ChatSession.t :=
  ChatSession.mk "s1" "New Chat" [] 10.

(** A stream with two grounding updates among its text. *)
Definition sourcesOne : GroundingMetadata.t :=
  GroundingMetadata.mk None
    (Some [GroundingChunk.mk (Some ("https://a.example", "A"))]).

Definition sourcesTwo : GroundingMetadata.t :=
  GroundingMetadata.mk None
    (Some [GroundingChunk.mk (Some ("https://a.example", "A"));
           GroundingChunk.mk (Some ("https://b.example", "B"))]).

Definition groundedBackend : Gemini.Request → Gemini.Response :=
  answering
    [Gemini.mkChunk (Some "Hel") (Some sourcesOne);
     Gemini.mkChunk None (Some sourcesTwo);
     textChunk "lo"] false.


(** A stream of two deltas with a click on another chat, a new chat and
    a title answer in between. *)
Definition busyTicks : list Tick :=
  [Callback (Gemini.TextDelta "Hel");
   Meanwhile (Select "elsewhere");
   Meanwhile (NewChat "s2" 14);
   Meanwhile (TitleArrived "s1" "Greeting");
   Callback (Gemini.TextDelta "lo")].

(** * Properties *)

(** ** Strings and [find] *)

Section StringFacts.

Lemma append_nil_r (s : string) : s +:+ EmptyString = s.
Proof.
  induction s as [|a s IH]; [reflexivity|].
  change (String a (s +:+ EmptyString) = String a s). by rewrite IH.
Qed.

Lemma append_assoc (s t u : string) : (s +:+ t) +:+ u = s +:+ (t +:+ u).
Proof.
  induction s as [|a s IH]; [reflexivity|].
  change (String a ((s +:+ t) +:+ u) = String a (s +:+ (t +:+ u))).
  by rewrite IH.
Qed.

Lemma length_append (s t : string) :
  String.length (s +:+ t) = String.length s + String.length t.
Proof.
  induction s as [|a s IH]; [reflexivity|].
  change (S (String.length (s +:+ t)) = S (String.length s + String.length t)).
  by rewrite IH.
Qed.

Lemma concatDeltas_app (ds es : list string) :
  concatDeltas (ds ++ es) = concatDeltas ds +:+ concatDeltas es.
Proof.
  induction ds as [|d ds IH]; [reflexivity|].
  change (d +:+ concatDeltas (ds ++ es) = (d +:+ concatDeltas ds) +:+ concatDeltas es).
  by rewrite IH, append_assoc.
Qed.

Lemma truthy_Some (o : option string) (s : string) :
  truthy o = Some s ↔ o = Some s ∧ s ≠ EmptyString.
Proof.
  destruct o as [[|a r]|]; simpl; split; try done.
  - intros [[= <-] ?]; done.
  - intros [= <-]; done.
  - intros [[= <-] ?]; done.
  - intros [? ?]; done.
Qed.

End StringFacts.

Section FindFacts.
Context {A : Type} (P : A → Prop) `{!∀ x, Decision (P x)}.

Lemma find_Some_holds (l : list A) (x : A) : find P l = Some x → P x ∧ x ∈ l.
Proof.
  unfold find. destruct (list_find P l) as [[i y]|] eqn:E; [|done].
  intros [= <-]. apply list_find_Some in E as (Hl & HP & _).
  split; [done|]. by eapply list_elem_of_lookup_2.
Qed.

Lemma find_is_Some (l : list A) (x : A) : x ∈ l → P x → is_Some (find P l).
Proof.
  intros Hx HP. unfold find.
  destruct (list_find_elem_of P l x Hx HP) as [[i y] ->]. by eexists.
Qed.

Lemma find_None_app (l k : list A) :
  Forall (λ x, ¬ P x) l → find P (l ++ k) = find P k.
Proof.
  intros Hl. unfold find. rewrite list_find_app_r by by apply list_find_None.
  by destruct (list_find P k) as [[i y]|].
Qed.

Lemma find_cons_holds (x : A) (l : list A) : P x → find P (x :: l) = Some x.
Proof. intros HP. unfold find. simpl. by rewrite decide_True. Qed.

(** Mapping a function that does not change whether [P] holds
    commutes with [find]. *)
Lemma find_fmap_stable (g : A → A) (l : list A) :
  (∀ x, P (g x) ↔ P x) → find P (g <$> l) = g <$> find P l.
Proof.
  intros Hg. unfold find. rewrite list_find_fmap.
  rewrite (list_find_ext (P ∘ g) P) by (intros x; apply Hg).
  by destruct (list_find P l) as [[i y]|].
Qed.

End FindFacts.

(** ** The three updaters of the generation engine *)

Section Updaters.

Lemma withContentDone_keepsId c : keepsId (ChatMessage.withContentDone c).
Proof. by intros m. Qed.

Lemma withGrounding_keepsId g : keepsId (ChatMessage.withGrounding g).
Proof. by intros m. Qed.

Lemma find_replaceMessage (bot : string) f (msgs : list ChatMessage.t) :
  keepsId f →
  find (hasMessageId bot) (replaceMessage bot f msgs)
  = f <$> find (hasMessageId bot) msgs.
Proof.
  intros Hf. unfold replaceMessage. rewrite find_fmap_stable.
  - destruct (find (hasMessageId bot) msgs) as [m|] eqn:E; [|done].
    apply find_Some_holds in E as [E _]. simpl. by rewrite decide_True.
  - intros m. unfold hasMessageId. case_decide; [by rewrite Hf|done].
Qed.

Lemma replaceMessage_length bot f msgs :
  length (replaceMessage bot f msgs) = length msgs.
Proof. unfold replaceMessage. by rewrite length_fmap. Qed.

Lemma replaceMessage_lookup bot f (msgs : list ChatMessage.t) (j : nat) :
  replaceMessage bot f msgs !! j
  = (λ m, if decide (ChatMessage.id m = bot) then f m else m) <$> msgs !! j.
Proof. unfold replaceMessage. by rewrite list_lookup_fmap. Qed.

(** What an updater does to the session it looks up. *)
Lemma find_patchPlaceholder sid bot f (prev : list ChatSession.t) :
  find (hasSessionId sid) (patchPlaceholder sid bot f prev)
  = (λ s, ChatSession.withMessages
            (replaceMessage bot f (ChatSession.messages s)) s)
    <$> find (hasSessionId sid) prev.
Proof.
  unfold patchPlaceholder.
  destruct (find (hasSessionId sid) prev) as [session|] eqn:E.
  - rewrite find_fmap_stable.
    + rewrite E. simpl. apply find_Some_holds in E as [E _].
      by rewrite decide_True.
    + intros s. unfold hasSessionId. by case_decide.
  - by rewrite E.
Qed.

Lemma patchPlaceholder_length sid bot f prev :
  length (patchPlaceholder sid bot f prev) = length prev.
Proof.
  unfold patchPlaceholder. destruct (find _ prev); [|done].
  by rewrite length_fmap.
Qed.

(** Position by position: a session keeps its id, title and
    [updatedAt], and a session with another id is not touched. *)
Lemma patchPlaceholder_lookup sid bot f (prev : list ChatSession.t) i s :
  prev !! i = Some s →
  ∃ s', patchPlaceholder sid bot f prev !! i = Some s'
        ∧ ChatSession.id s' = ChatSession.id s
        ∧ ChatSession.title s' = ChatSession.title s
        ∧ ChatSession.updatedAt s' = ChatSession.updatedAt s
        ∧ (ChatSession.id s ≠ sid → s' = s).
Proof.
  intros Hi. unfold patchPlaceholder.
  destruct (find _ prev) as [session|]; [|by exists s].
  rewrite list_lookup_fmap, Hi. simpl.
  case_decide; eexists; (split; [reflexivity|]); by repeat split.
Qed.

Lemma placeholder_patch sid bot f (st : AppState.t) :
  keepsId f →
  placeholder sid bot (AppState.setSessions (patchPlaceholder sid bot f) st)
  = f <$> placeholder sid bot st.
Proof.
  intros Hf. unfold placeholder. simpl. rewrite find_patchPlaceholder.
  destruct (find (hasSessionId sid) (AppState.sessions st)) as [s|]; [|done].
  simpl. by apply find_replaceMessage.
Qed.

Lemma find_updateSessionMessages sid msgs now (st : AppState.t) :
  find (hasSessionId sid) (AppState.sessions (updateSessionMessages sid msgs now st))
  = ChatSession.withMessagesAt msgs now
    <$> find (hasSessionId sid) (AppState.sessions st).
Proof.
  unfold updateSessionMessages. simpl. rewrite find_fmap_stable.
  - destruct (find _ (AppState.sessions st)) as [s|] eqn:E; [|done].
    apply find_Some_holds in E as [E _]. simpl. by rewrite decide_True.
  - intros s. unfold hasSessionId. by case_decide.
Qed.

End Updaters.

(** ** One invocation of [generateResponse] *)

Section Invocation.

Lemma start_Some botMsgId tMsg tUpd msgs st sid :
  truthy (AppState.currentSessionId st) = Some sid →
  start botMsgId tMsg tUpd msgs st
  = Some (Invocation.mk sid botMsgId EmptyString None,
          startState sid botMsgId tMsg tUpd msgs st).
Proof. intros H. unfold start. by rewrite H. Qed.

Lemma start_None botMsgId tMsg tUpd msgs st :
  truthy (AppState.currentSessionId st) = None →
  start botMsgId tMsg tUpd msgs st = None.
Proof. intros H. unfold start. by rewrite H. Qed.

Lemma startState_session sid botMsgId tMsg tUpd msgs st :
  find (hasSessionId sid) (AppState.sessions (startState sid botMsgId tMsg tUpd msgs st))
  = ChatSession.withMessagesAt (msgs ++ [placeholderAtStart botMsgId tMsg st]) tUpd
    <$> find (hasSessionId sid) (AppState.sessions st).
Proof. unfold startState. apply find_updateSessionMessages. Qed.

(** Some message answers to the placeholder's id once the call has
    started, and it is the placeholder itself when the id is fresh. *)
Lemma startState_placeholder sid botMsgId tMsg tUpd msgs st :
  holdsSession sid st →
  ∃ m, placeholder sid botMsgId (startState sid botMsgId tMsg tUpd msgs st) = Some m
       ∧ (freshFor botMsgId msgs → m = placeholderAtStart botMsgId tMsg st).
Proof.
  intros [s Hs]. unfold placeholder. rewrite startState_session, Hs. simpl.
  destruct (find_is_Some (hasMessageId botMsgId)
              (msgs ++ [placeholderAtStart botMsgId tMsg st])
              (placeholderAtStart botMsgId tMsg st)) as [m Hm]; [|done|].
  { apply elem_of_app. right. by apply list_elem_of_singleton. }
  exists m. split; [done|]. intros Hf.
  rewrite find_None_app in Hm by done.
  rewrite find_cons_holds in Hm by done. congruence.
Qed.

Lemma deliver_invocation p e :
  Invocation.currentSessionId (deliver p e).1 = Invocation.currentSessionId p.1
  ∧ Invocation.botMsgId (deliver p e).1 = Invocation.botMsgId p.1
  ∧ Invocation.accumulatedText (deliver p e).1
    = accAfter (Invocation.accumulatedText p.1) e.
Proof. by destruct e. Qed.

Lemma deliver_placeholder p e :
  placeholder (Invocation.currentSessionId p.1) (Invocation.botMsgId p.1) (deliver p e).2
  = patchOf (Invocation.accumulatedText p.1) e
    <$> placeholder (Invocation.currentSessionId p.1) (Invocation.botMsgId p.1) p.2.
Proof.
  destruct e as [chunkText|md]; simpl.
  - apply placeholder_patch, withContentDone_keepsId.
  - apply placeholder_patch, withGrounding_keepsId.
Qed.

Lemma deliver_flags p e :
  AppState.currentSessionId (deliver p e).2 = AppState.currentSessionId p.2
  ∧ AppState.isLoading (deliver p e).2 = AppState.isLoading p.2
  ∧ AppState.currentModel (deliver p e).2 = AppState.currentModel p.2
  ∧ AppState.enableSearch (deliver p e).2 = AppState.enableSearch p.2
  ∧ AppState.enableThinking (deliver p e).2 = AppState.enableThinking p.2.
Proof. by destruct e. Qed.

End Invocation.

Section Run.

Lemma deltas_snoc evs e :
  Gemini.deltas (evs ++ [e])
  = Gemini.deltas evs ++ match e with
                         | Gemini.TextDelta t => [t]
                         | Gemini.GroundingUpdate _ => []
                         end.
Proof. unfold Gemini.deltas. rewrite bind_app. simpl. by rewrite app_nil_r. Qed.

Lemma lastGrounding_snoc evs e :
  lastGrounding (evs ++ [e])
  = match e with
    | Gemini.TextDelta _ => lastGrounding evs
    | Gemini.GroundingUpdate md => Some md
    end.
Proof.
  unfold lastGrounding. rewrite bind_app. simpl. rewrite app_nil_r.
  destruct e; [by rewrite app_nil_r|by rewrite last_snoc].
Qed.

Lemma concatDeltas_snoc ds t : concatDeltas (ds ++ [t]) = concatDeltas ds +:+ t.
Proof.
  rewrite concatDeltas_app. f_equal.
  change (t +:+ EmptyString = t). apply append_nil_r.
Qed.

Lemma placeholderAfter_nil m : placeholderAfter [] m = m.
Proof. by destruct m. Qed.

Lemma placeholderAfter_snoc evs e m :
  placeholderAfter (evs ++ [e]) m
  = patchOf (concatDeltas (Gemini.deltas evs)) e (placeholderAfter evs m).
Proof.
  unfold placeholderAfter. rewrite deltas_snoc, lastGrounding_snoc.
  destruct e as [t|md]; simpl.
  - unfold ChatMessage.withContentDone. simpl.
    rewrite <- concatDeltas_snoc.
    by destruct (Gemini.deltas evs).
  - unfold ChatMessage.withGrounding. simpl. by rewrite app_nil_r.
Qed.

(** The callbacks [evs], delivered in order to an invocation whose
    accumulator is still empty, leave the accumulator at the
    concatenation of the deltas and the placeholder at
    [placeholderAfter evs]. *)
Lemma run_tracks p evs m :
  Invocation.accumulatedText p.1 = EmptyString →
  placeholder (Invocation.currentSessionId p.1) (Invocation.botMsgId p.1) p.2 = Some m →
  Invocation.currentSessionId (foldl deliver p evs).1 = Invocation.currentSessionId p.1
  ∧ Invocation.botMsgId (foldl deliver p evs).1 = Invocation.botMsgId p.1
  ∧ Invocation.accumulatedText (foldl deliver p evs).1
    = concatDeltas (Gemini.deltas evs)
  ∧ placeholder (Invocation.currentSessionId p.1) (Invocation.botMsgId p.1)
      (foldl deliver p evs).2
    = Some (placeholderAfter evs m).
Proof.
  intros Hacc Hm. induction evs as [|e evs IH] using rev_ind.
  - simpl. by rewrite placeholderAfter_nil.
  - destruct IH as (Hs & Hb & Ha & Hp). rewrite foldl_snoc.
    destruct (deliver_invocation (foldl deliver p evs) e) as (Hs' & Hb' & Ha').
    pose proof (deliver_placeholder (foldl deliver p evs) e) as Hp'.
    rewrite Hs, Hb, Ha, Hp in Hp'. rewrite Hs', Hb', Ha', Hs, Hb, Ha.
    repeat split.
    + rewrite deltas_snoc. destruct e; simpl.
      * by rewrite concatDeltas_snoc.
      * by rewrite app_nil_r.
    + rewrite Hp'. simpl. by rewrite placeholderAfter_snoc.
Qed.

Lemma run_flags p evs :
  AppState.currentSessionId (foldl deliver p evs).2 = AppState.currentSessionId p.2
  ∧ AppState.isLoading (foldl deliver p evs).2 = AppState.isLoading p.2.
Proof.
  induction evs as [|e evs IH] using rev_ind; [done|].
  rewrite foldl_snoc.
  destruct (deliver_flags (foldl deliver p evs) e) as (-> & -> & _). done.
Qed.

(** The [catch] block writes the notice over whatever the placeholder
    holds. *)
Lemma onError_placeholder inv st :
  placeholder (Invocation.currentSessionId inv) (Invocation.botMsgId inv) (onError inv st)
  = ChatMessage.withContentDone errorNotice
    <$> placeholder (Invocation.currentSessionId inv) (Invocation.botMsgId inv) st.
Proof. apply placeholder_patch, withContentDone_keepsId. Qed.

Lemma settle_placeholder sid bot o p :
  placeholder sid bot (settle o p)
  = placeholder sid bot (match o with
                         | Gemini.Rejected => onError p.1 p.2
                         | Gemini.Resolved => p.2
                         end).
Proof. done. Qed.

Lemma settle_isLoading o p : AppState.isLoading (settle o p) = false.
Proof. done. Qed.

End Run.

Section WholeCall.
Variable backend : Gemini.Request → Gemini.Response.

Lemma generateResponse_started botMsgId tMsg tUpd msgs hist txt w p :
  start botMsgId tMsg tUpd msgs (World.app w) = Some p →
  generateResponse backend botMsgId tMsg tUpd msgs hist txt w
  = World.mk (settle (outcomeOf backend w hist txt) (foldl deliver p (callbacksOf backend w hist txt)))
      (World.adapterCalls w ++ [streamOptions (World.app w) hist txt])
      (World.titleRequests w).
Proof. intros H. unfold generateResponse. by rewrite H. Qed.

Lemma generateResponse_not_started botMsgId tMsg tUpd msgs hist txt w :
  truthy (AppState.currentSessionId (World.app w)) = None →
  generateResponse backend botMsgId tMsg tUpd msgs hist txt w = w.
Proof.
  intros H. unfold generateResponse. by rewrite (start_None _ _ _ _ _ H).
Qed.

(** The whole call, seen from the placeholder: while the callbacks
    arrive it is [placeholderAfter] of those delivered so far, and the
    [catch] block overwrites it when the adapter rejects. *)
Lemma generateResponse_placeholder botMsgId tMsg tUpd msgs hist txt w sid :
  truthy (AppState.currentSessionId (World.app w)) = Some sid →
  holdsSession sid (World.app w) →
  ∃ m0,
    (freshFor botMsgId msgs → m0 = placeholderAtStart botMsgId tMsg (World.app w))
    ∧ (∀ evs,
         placeholder sid botMsgId
           (foldl deliver (startOf sid botMsgId tMsg tUpd msgs (World.app w)) evs).2
         = Some (placeholderAfter evs m0))
    ∧ placeholder sid botMsgId
        (World.app (generateResponse backend botMsgId tMsg tUpd msgs hist txt w))
      = Some (match outcomeOf backend w hist txt with
              | Gemini.Resolved => placeholderAfter (callbacksOf backend w hist txt) m0
              | Gemini.Rejected =>
                  ChatMessage.withContentDone errorNotice
                    (placeholderAfter (callbacksOf backend w hist txt) m0)
              end).
Proof.
  intros Hc Hs.
  destruct (startState_placeholder sid botMsgId tMsg tUpd msgs (World.app w) Hs)
    as (m0 & Hm0 & Hfresh).
  exists m0. split; [done|].
  assert (∀ evs,
    Invocation.currentSessionId
      (foldl deliver (startOf sid botMsgId tMsg tUpd msgs (World.app w)) evs).1 = sid
    ∧ Invocation.botMsgId
      (foldl deliver (startOf sid botMsgId tMsg tUpd msgs (World.app w)) evs).1 = botMsgId
    ∧ placeholder sid botMsgId
        (foldl deliver (startOf sid botMsgId tMsg tUpd msgs (World.app w)) evs).2
      = Some (placeholderAfter evs m0)) as Hrun.
  { intros evs.
    destruct (run_tracks (startOf sid botMsgId tMsg tUpd msgs (World.app w)) evs m0)
      as (H1 & H2 & _ & H4); [done|done|]. done. }
  split; [intros evs; apply Hrun|].
  rewrite (generateResponse_started _ _ _ _ _ _ _ _ (start_Some _ _ _ _ _ _ Hc)).
  cbn [World.app]. rewrite settle_placeholder.
  fold (startOf sid botMsgId tMsg tUpd msgs (World.app w)).
  destruct (Hrun (callbacksOf backend w hist txt)) as (H1 & H2 & H3).
  destruct (outcomeOf backend w hist txt); [done|].
  pose proof (onError_placeholder
    (foldl deliver (startOf sid botMsgId tMsg tUpd msgs (World.app w))
       (callbacksOf backend w hist txt)).1
    (foldl deliver (startOf sid botMsgId tMsg tUpd msgs (World.app w))
       (callbacksOf backend w hist txt)).2) as He.
  rewrite H1, H2, H3 in He. exact He.
Qed.

Lemma generateResponse_isLoading botMsgId tMsg tUpd msgs hist txt w sid :
  truthy (AppState.currentSessionId (World.app w)) = Some sid →
  AppState.isLoading
    (World.app (generateResponse backend botMsgId tMsg tUpd msgs hist txt w)) = false.
Proof.
  intros Hc.
  by rewrite (generateResponse_started _ _ _ _ _ _ _ _ (start_Some _ _ _ _ _ _ Hc)).
Qed.

Lemma generateResponse_calls botMsgId tMsg tUpd msgs hist txt w sid :
  truthy (AppState.currentSessionId (World.app w)) = Some sid →
  World.adapterCalls (generateResponse backend botMsgId tMsg tUpd msgs hist txt w)
  = World.adapterCalls w ++ [streamOptions (World.app w) hist txt].
Proof.
  intros Hc.
  by rewrite (generateResponse_started _ _ _ _ _ _ _ _ (start_Some _ _ _ _ _ _ Hc)).
Qed.

End WholeCall.

(** ** The adapter *)

Section Adapter.

(** C8. The thinking configuration sent to the backend is a budget of
    16000 (not zero) when extended thinking is enabled on the pro tier,
    a budget of exactly zero when it is disabled on the pro tier, and
    absent on the flash tier, where the whole request is the same
    whatever the value of [enableThinking]. *)
Theorem thinkingConfig_by_tier (o : Gemini.StreamOptions) :
  Gemini.thinkingConfig (Gemini.buildRequest o)
  = match Gemini.model o, Gemini.enableThinking o with
    | PRO, true => Some (Gemini.mkThinking 16000)
    | PRO, false => Some (Gemini.mkThinking 0)
    | FLASH, _ => None
    end
  ∧ Gemini.thinkingBudget (Gemini.mkThinking 16000) ≠ 0%Z
  ∧ ∀ hist msg search b b',
      Gemini.buildRequest (Gemini.mkOptions FLASH hist msg search b)
      = Gemini.buildRequest (Gemini.mkOptions FLASH hist msg search b').
Proof.
  split; [|split].
  - destruct o as [[] hist msg search []]; reflexivity.
  - discriminate.
  - by intros hist msg search [] [].
Qed.

Lemma chunkEvents_delta (c : Gemini.Chunk) (t : string) :
  Gemini.TextDelta t ∈ Gemini.chunkEvents c
  ↔ Gemini.text c = Some t ∧ t ≠ EmptyString.
Proof.
  unfold Gemini.chunkEvents. rewrite elem_of_app, <- truthy_Some.
  destruct (truthy (Gemini.text c)) as [t'|], (Gemini.metadata c) as [md|];
    rewrite ?list_elem_of_singleton, ?elem_of_nil; intuition congruence.
Qed.

Lemma chunkEvents_grounding (c : Gemini.Chunk) (md : GroundingMetadata.t) :
  Gemini.GroundingUpdate md ∈ Gemini.chunkEvents c ↔ Gemini.metadata c = Some md.
Proof.
  unfold Gemini.chunkEvents. rewrite elem_of_app.
  destruct (truthy (Gemini.text c)) as [t'|], (Gemini.metadata c) as [md'|];
    rewrite ?list_elem_of_singleton, ?elem_of_nil; intuition congruence.
Qed.

(** C9. Every [onChunk] callback the adapter makes carries the
    non-empty text of a chunk of the backend's stream, and every
    [onGrounding] callback the metadata of one; a chunk whose text is
    absent or empty causes no [onChunk], a chunk without metadata no
    [onGrounding]. *)
Theorem adapter_delivers_no_empty_delta
    (o : Gemini.StreamOptions) (backend : Gemini.Request → Gemini.Response) :
  Forall (λ e,
      match e with
      | Gemini.TextDelta t =>
          t ≠ EmptyString
          ∧ ∃ c, c ∈ Gemini.chunks (backend (Gemini.buildRequest o))
                 ∧ Gemini.text c = Some t
      | Gemini.GroundingUpdate md =>
          ∃ c, c ∈ Gemini.chunks (backend (Gemini.buildRequest o))
               ∧ Gemini.metadata c = Some md
      end)
    (Gemini.streamGeminiResponse o backend).1
  ∧ Forall (λ c,
      (Gemini.text c = None ∨ Gemini.text c = Some EmptyString ↔
         Forall (λ e, ∀ t, e ≠ Gemini.TextDelta t) (Gemini.chunkEvents c))
      ∧ (Gemini.metadata c = None ↔
         Forall (λ e, ∀ md, e ≠ Gemini.GroundingUpdate md) (Gemini.chunkEvents c)))
    (Gemini.chunks (backend (Gemini.buildRequest o))).
Proof.
  split.
  - apply Forall_forall. intros e He. simpl in He.
    apply list_elem_of_bind in He as (c & He & Hc).
    destruct e as [t|md].
    + apply chunkEvents_delta in He as [? ?]. eauto.
    + apply chunkEvents_grounding in He. eauto.
  - apply Forall_forall. intros c _. split.
    + rewrite Forall_forall. split.
      * intros Hc e He t ->. apply chunkEvents_delta in He as [He Ht].
        destruct Hc; congruence.
      * intros Hc. destruct (Gemini.text c) as [[|a r]|] eqn:E; auto.
        exfalso. eapply Hc; [|reflexivity].
        apply chunkEvents_delta. split; [exact E|done].
    + rewrite Forall_forall. split.
      * intros Hc e He md ->. apply chunkEvents_grounding in He. congruence.
      * intros Hc. destruct (Gemini.metadata c) as [md|] eqn:E; auto.
        exfalso. eapply Hc; [|reflexivity].
        apply chunkEvents_grounding. exact E.
Qed.

(** The deltas the engine receives are the non-empty chunk texts, in
    the order of the chunks. *)
Lemma deltas_of_chunks (cs : list Gemini.Chunk) :
  Gemini.deltas (cs ≫= Gemini.chunkEvents)
  = omap (λ c, truthy (Gemini.text c)) cs.
Proof.
  induction cs as [|c cs IH]; [done|].
  rewrite bind_cons. unfold Gemini.deltas in *. rewrite bind_app, IH.
  simpl. unfold Gemini.chunkEvents.
  destruct (truthy (Gemini.text c)), (Gemini.metadata c); done.
Qed.

End Adapter.

(** ** The streaming state machine *)

Section Streaming.
Variable backend : Gemini.Request → Gemini.Response.
Variables (botMsgId : string) (tMsg tUpd : Z).
Variables (msgs hist : list ChatMessage.t) (txt : string).
Variables (w : World.t) (sid : string).

Hypothesis current : truthy (AppState.currentSessionId (World.app w)) = Some sid.
Hypothesis held : holdsSession sid (World.app w).

Lemma content_placeholderAfter es m :
  ChatMessage.content m = EmptyString →
  ChatMessage.content (placeholderAfter es m) = concatDeltas (Gemini.deltas es).
Proof. intros Hm. simpl. by destruct (Gemini.deltas es). Qed.

Lemma isThinking_placeholderAfter es m :
  ChatMessage.isThinking (placeholderAfter es m)
  = if bool_decide (Gemini.deltas es = []) then ChatMessage.isThinking m
    else Some false.
Proof. simpl. by destruct (Gemini.deltas es). Qed.

(** C4. While the callbacks of one invocation arrive, the content of
    the placeholder is the concatenation of the deltas delivered so
    far; when the stream ends without error, the content the call
    leaves behind is the concatenation of all the deltas, in delivery
    order, and these are the non-empty chunk texts of the backend's
    stream. *)
Theorem content_is_concatenation_of_deltas :
  freshFor botMsgId msgs →
  (∀ k, ∃ m,
     placeholder sid botMsgId
       (foldl deliver (startOf sid botMsgId tMsg tUpd msgs (World.app w))
          (take k (callbacksOf backend w hist txt))).2
     = Some m
     ∧ ChatMessage.content m
       = concatDeltas (Gemini.deltas (take k (callbacksOf backend w hist txt))))
  ∧ (outcomeOf backend w hist txt = Gemini.Resolved →
     ∃ m, placeholder sid botMsgId
            (World.app (generateResponse backend botMsgId tMsg tUpd msgs hist txt w))
          = Some m
          ∧ ChatMessage.content m
            = concatDeltas (Gemini.deltas (callbacksOf backend w hist txt)))
  ∧ Gemini.deltas (callbacksOf backend w hist txt)
    = omap (λ c, truthy (Gemini.text c))
        (Gemini.chunks
           (backend (Gemini.buildRequest (streamOptions (World.app w) hist txt)))).
Proof.
  intros Hf.
  destruct (generateResponse_placeholder backend botMsgId tMsg tUpd msgs hist txt w sid
              current held) as (m0 & Hm0 & Hrun & Hfin).
  rewrite (Hm0 Hf) in Hrun, Hfin. split; [|split].
  - intros k. eexists. split; [apply Hrun|]. by apply content_placeholderAfter.
  - intros Hok. rewrite Hok in Hfin.
    eexists. split; [exact Hfin|]. by apply content_placeholderAfter.
  - apply deltas_of_chunks.
Qed.

(** The flag [isThinking] of the placeholder while the callbacks
    arrive: set until the first delta, cleared from then on. *)
Lemma isThinking_while_streaming (k : nat) :
  freshFor botMsgId msgs →
  ∃ m,
    placeholder sid botMsgId
      (foldl deliver (startOf sid botMsgId tMsg tUpd msgs (World.app w))
         (take k (callbacksOf backend w hist txt))).2
    = Some m
    ∧ ChatMessage.isThinking m
      = Some (bool_decide
                (Gemini.deltas (take k (callbacksOf backend w hist txt)) = [])).
Proof.
  intros Hf.
  destruct (generateResponse_placeholder backend botMsgId tMsg tUpd msgs hist txt w sid
              current held) as (m0 & Hm0 & Hrun & _).
  rewrite (Hm0 Hf) in Hrun.
  eexists. split; [apply Hrun|]. rewrite isThinking_placeholderAfter.
  by case_bool_decide.
Qed.

(** After the call, the flag is cleared when a delta arrived or the
    adapter rejected. *)
Lemma isThinking_cleared :
  Gemini.deltas (callbacksOf backend w hist txt) ≠ []
  ∨ outcomeOf backend w hist txt = Gemini.Rejected →
  ∃ m, placeholder sid botMsgId
         (World.app (generateResponse backend botMsgId tMsg tUpd msgs hist txt w))
       = Some m
       ∧ ChatMessage.isThinking m = Some false.
Proof.
  intros Hcase.
  destruct (generateResponse_placeholder backend botMsgId tMsg tUpd msgs hist txt w sid
              current held) as (m0 & _ & _ & Hfin).
  eexists. split; [exact Hfin|].
  destruct (outcomeOf backend w hist txt) eqn:Ho; [|done].
  destruct Hcase as [Hd|?]; [|done].
  rewrite isThinking_placeholderAfter. by rewrite bool_decide_false.
Qed.

(** C1. A stream that ends normally without a single delta leaves the
    placeholder as [start] wrote it: [isThinking] is still set and the
    content still empty, while the busy flag is lowered. *)
Theorem isThinking_left_set_by_silent_stream :
  freshFor botMsgId msgs →
  outcomeOf backend w hist txt = Gemini.Resolved →
  Gemini.deltas (callbacksOf backend w hist txt) = [] →
  ∃ m, placeholder sid botMsgId
         (World.app (generateResponse backend botMsgId tMsg tUpd msgs hist txt w))
       = Some m
       ∧ ChatMessage.isThinking m = Some true
       ∧ ChatMessage.content m = EmptyString
       ∧ AppState.isLoading
           (World.app (generateResponse backend botMsgId tMsg tUpd msgs hist txt w))
         = false.
Proof.
  intros Hf Hok Hd.
  destruct (generateResponse_placeholder backend botMsgId tMsg tUpd msgs hist txt w sid
              current held) as (m0 & Hm0 & _ & Hfin).
  rewrite (Hm0 Hf), Hok in Hfin. eexists. split; [exact Hfin|].
  rewrite isThinking_placeholderAfter. rewrite Hd. repeat split.
  - simpl. by rewrite Hd.
  - by eapply generateResponse_isLoading.
Qed.

(** C2, as the code has it. When the adapter fails after at least one
    delta, the placeholder shows the accumulated text until the failure
    and the fixed notice after it: the [catch] block replaces the
    content whole. *)
Theorem failure_replaces_partial_text :
  outcomeOf backend w hist txt = Gemini.Rejected →
  Gemini.deltas (callbacksOf backend w hist txt) ≠ [] →
  ∃ m m',
    placeholder sid botMsgId
      (foldl deliver (startOf sid botMsgId tMsg tUpd msgs (World.app w))
         (callbacksOf backend w hist txt)).2
    = Some m
    ∧ ChatMessage.content m
      = concatDeltas (Gemini.deltas (callbacksOf backend w hist txt))
    ∧ placeholder sid botMsgId
        (World.app (generateResponse backend botMsgId tMsg tUpd msgs hist txt w))
      = Some m'
    ∧ ChatMessage.content m' = errorNotice.
Proof.
  intros Hko Hd.
  destruct (generateResponse_placeholder backend botMsgId tMsg tUpd msgs hist txt w sid
              current held) as (m0 & _ & Hrun & Hfin).
  rewrite Hko in Hfin. do 2 eexists. split; [apply Hrun|].
  split; [|split; [exact Hfin|done]].
  simpl. by destruct (Gemini.deltas (callbacksOf backend w hist txt)).
Qed.

(** C6. When the adapter rejects, the placeholder's content is the
    fixed notice and its [isThinking] is cleared, the busy flag is
    lowered, and the invocation has made exactly one call to the
    adapter. *)
Theorem adapter_error_is_terminal :
  outcomeOf backend w hist txt = Gemini.Rejected →
  (∃ m, placeholder sid botMsgId
          (World.app (generateResponse backend botMsgId tMsg tUpd msgs hist txt w))
        = Some m
        ∧ ChatMessage.content m = errorNotice
        ∧ ChatMessage.isThinking m = Some false)
  ∧ AppState.isLoading
      (World.app (generateResponse backend botMsgId tMsg tUpd msgs hist txt w))
    = false
  ∧ World.adapterCalls (generateResponse backend botMsgId tMsg tUpd msgs hist txt w)
    = World.adapterCalls w ++ [streamOptions (World.app w) hist txt].
Proof.
  intros Hko.
  destruct (generateResponse_placeholder backend botMsgId tMsg tUpd msgs hist txt w sid
              current held) as (m0 & _ & _ & Hfin).
  rewrite Hko in Hfin. split; [|split].
  - eexists. split; [exact Hfin|done].
  - by eapply generateResponse_isLoading.
  - by eapply generateResponse_calls.
Qed.

End Streaming.

(** The scenario of the specification: "Hel", then "lo", then the end
    of the stream. *)
Lemma content_is_concatenation_of_deltas_witness :
  ∃ m, placeholder "s1" "b1"
         (World.app (generateResponse helloBackend "b1" 12 13 [hiMessage] [] "hi" firstVisit))
       = Some m
       ∧ ChatMessage.content m = "Hello".
Proof.
  destruct (content_is_concatenation_of_deltas helloBackend "b1" 12 13
              [hiMessage] [] "hi" firstVisit "s1") as (_ & Hfinal & _).
  - reflexivity.
  - by eexists.
  - repeat constructor. by intros [=].
  - exact (Hfinal eq_refl).
Defined.

Lemma isThinking_left_set_by_silent_stream_witness :
  ∃ m, placeholder "s1" "b1"
         (World.app (generateResponse silentBackend "b1" 12 13 [hiMessage] [] "hi" firstVisit))
       = Some m
       ∧ ChatMessage.isThinking m = Some true
       ∧ ChatMessage.content m = EmptyString
       ∧ AppState.isLoading
           (World.app (generateResponse silentBackend "b1" 12 13 [hiMessage] [] "hi" firstVisit))
         = false.
Proof.
  apply (isThinking_left_set_by_silent_stream silentBackend "b1" 12 13
           [hiMessage] [] "hi" firstVisit "s1").
  - reflexivity.
  - by eexists.
  - repeat constructor. by intros [=].
  - reflexivity.
  - reflexivity.
Defined.

Lemma failure_replaces_partial_text_witness :
  ∃ m m',
    placeholder "s1" "b1"
      (foldl deliver (startOf "s1" "b1" 12 13 [hiMessage] (World.app firstVisit))
         (callbacksOf brokenBackend firstVisit [] "hi")).2 = Some m
    ∧ ChatMessage.content m = "Hel"
    ∧ placeholder "s1" "b1"
        (World.app (generateResponse brokenBackend "b1" 12 13 [hiMessage] [] "hi" firstVisit))
      = Some m'
    ∧ ChatMessage.content m' = errorNotice.
Proof.
  apply (failure_replaces_partial_text brokenBackend "b1" 12 13
           [hiMessage] [] "hi" firstVisit "s1").
  - reflexivity.
  - by eexists.
  - reflexivity.
  - discriminate.
Defined.

(** C2, as stated, fails: after "Hel" has been shown and the adapter
    has thrown, the placeholder holds the notice, in which "Hel" does
    not occur. *)
Lemma partial_text_discarded_on_failure :
  outcomeOf brokenBackend firstVisit [] "hi" = Gemini.Rejected
  ∧ ChatMessage.content
      <$> placeholder "s1" "b1"
            (foldl deliver (startOf "s1" "b1" 12 13 [hiMessage] (World.app firstVisit))
               (callbacksOf brokenBackend firstVisit [] "hi")).2
    = Some "Hel"
  ∧ ChatMessage.content
      <$> placeholder "s1" "b1"
            (World.app (handleSendMessage brokenBackend "u1" 11 "b1" 12 13 "hi" [] firstVisit))
    = Some errorNotice
  ∧ ¬ visibleIn "Hel" errorNotice.
Proof.
  repeat split. intros [i Hi]. vm_compute in Hi. discriminate.
Qed.

Lemma adapter_error_is_terminal_witness :
  (∃ m, placeholder "s1" "b1"
          (World.app (generateResponse brokenBackend "b1" 12 13 [hiMessage] [] "hi" firstVisit))
        = Some m
        ∧ ChatMessage.content m = errorNotice
        ∧ ChatMessage.isThinking m = Some false)
  ∧ AppState.isLoading
      (World.app (generateResponse brokenBackend "b1" 12 13 [hiMessage] [] "hi" firstVisit))
    = false
  ∧ World.adapterCalls
      (generateResponse brokenBackend "b1" 12 13 [hiMessage] [] "hi" firstVisit)
    = [Gemini.mkOptions FLASH [] "hi" false false].
Proof.
  apply (adapter_error_is_terminal brokenBackend "b1" 12 13
           [hiMessage] [] "hi" firstVisit "s1").
  - reflexivity.
  - by eexists.
  - reflexivity.
Defined.

(** ** A call in flight among other events *)

Lemma find_cons_other {A} (P : A → Prop) `{!∀ x, Decision (P x)} (x : A) (l : list A) :
  ¬ P x → find P (x :: l) = find P l.
Proof.
  intros HP. unfold find. simpl. rewrite decide_False by done.
  by destruct (list_find P l) as [[i y]|].
Qed.

Lemma background_placeholder (sid bot : string) (b : Background) (st : AppState.t) :
  sparesId sid (Meanwhile b) →
  placeholder sid bot (background b st) = placeholder sid bot st.
Proof.
  intros Hb. destruct b as [c|uuid now|sessionId ttl]; simpl.
  - done.
  - unfold placeholder, createNewSession. simpl.
    by rewrite find_cons_other.
  - unfold placeholder, updateSessionTitle. simpl. rewrite find_fmap_stable.
    + destruct (find (hasSessionId sid) (AppState.sessions st)) as [s|]; [|done].
      simpl. by case_decide.
    + intros s. unfold hasSessionId. by case_decide.
Qed.

Lemma callbacksIn_snoc ts t :
  callbacksIn (ts ++ [t])
  = callbacksIn ts ++ match t with Callback e => [e] | Meanwhile _ => [] end.
Proof. unfold callbacksIn. rewrite bind_app. simpl. by rewrite app_nil_r. Qed.

(** The callbacks of a call do to its placeholder what they do alone,
    whatever selections, new chats and titles come in between. *)
Lemma interleaved_run_tracks p ts m :
  Invocation.accumulatedText p.1 = EmptyString →
  placeholder (Invocation.currentSessionId p.1) (Invocation.botMsgId p.1) p.2 = Some m →
  Forall (sparesId (Invocation.currentSessionId p.1)) ts →
  (foldl tick p ts).1 = (foldl deliver p (callbacksIn ts)).1
  ∧ placeholder (Invocation.currentSessionId p.1) (Invocation.botMsgId p.1)
      (foldl tick p ts).2
    = Some (placeholderAfter (callbacksIn ts) m).
Proof.
  intros Hacc Hm. induction ts as [|t ts IH] using rev_ind; intros Hts.
  - simpl. by rewrite placeholderAfter_nil.
  - apply Forall_app in Hts as [Hts Ht]. rewrite Forall_singleton in Ht.
    destruct (IH Hts) as (Hinv & Hp). clear IH.
    destruct (run_tracks p (callbacksIn ts) m Hacc Hm) as (Hs & Hb & Ha & _).
    rewrite foldl_snoc, callbacksIn_snoc. destruct t as [e|b].
    + rewrite foldl_snoc. simpl.
      pose proof (deliver_placeholder (foldl tick p ts) e) as Hp'.
      rewrite Hinv, Hs, Hb, Ha, Hp in Hp'. split.
      * destruct e; simpl; by rewrite Hinv.
      * rewrite Hp'. simpl. by rewrite placeholderAfter_snoc.
    + rewrite app_nil_r. simpl. split; [done|].
      by rewrite background_placeholder.
Qed.

(** ** The frame of a streaming event *)

Lemma deliver_sessions (p : Invocation.t * AppState.t) (e : Gemini.Event) :
  AppState.sessions (deliver p e).2
  = patchPlaceholder (Invocation.currentSessionId p.1) (Invocation.botMsgId p.1)
      (patchOf (Invocation.accumulatedText p.1) e) (AppState.sessions p.2).
Proof. by destruct e. Qed.

(** The callbacks read the session id from their closure, never from
    the state: selecting another session commutes with them. *)
Lemma deliver_after_select (p : Invocation.t * AppState.t) (e : Gemini.Event)
    (c : option string) :
  deliver (p.1, AppState.setCurrentSessionId c p.2) e
  = ((deliver p e).1, AppState.setCurrentSessionId c (deliver p e).2).
Proof. by destruct e. Qed.

(** C5. One streaming event (a text delta or a grounding update)
    rewrites, in the session whose id the invocation captured, the
    messages that carry the placeholder's id and nothing else: the
    sessions with another id keep their value, the target session keeps
    its id, title and [updatedAt], its other messages keep their value
    and position, the selected session id is not changed, and the
    event does the same whichever session is selected when it arrives. *)
Theorem streaming_event_touches_only_placeholder
    (p : Invocation.t * AppState.t) (e : Gemini.Event) :
  (Invocation.currentSessionId (deliver p e).1 = Invocation.currentSessionId p.1
   ∧ Invocation.botMsgId (deliver p e).1 = Invocation.botMsgId p.1)
  ∧ AppState.currentSessionId (deliver p e).2 = AppState.currentSessionId p.2
  ∧ length (AppState.sessions (deliver p e).2) = length (AppState.sessions p.2)
  ∧ (∀ i s, AppState.sessions p.2 !! i = Some s →
       ∃ s', AppState.sessions (deliver p e).2 !! i = Some s'
             ∧ ChatSession.id s' = ChatSession.id s
             ∧ ChatSession.title s' = ChatSession.title s
             ∧ ChatSession.updatedAt s' = ChatSession.updatedAt s
             ∧ (ChatSession.id s ≠ Invocation.currentSessionId p.1 → s' = s))
  ∧ (∀ s, find (hasSessionId (Invocation.currentSessionId p.1)) (AppState.sessions p.2)
          = Some s →
       ∃ s', find (hasSessionId (Invocation.currentSessionId p.1))
               (AppState.sessions (deliver p e).2) = Some s'
             ∧ length (ChatSession.messages s') = length (ChatSession.messages s)
             ∧ ∀ j m, ChatSession.messages s !! j = Some m →
                 ChatSession.messages s' !! j
                 = Some (if decide (ChatMessage.id m = Invocation.botMsgId p.1)
                         then patchOf (Invocation.accumulatedText p.1) e m
                         else m))
  ∧ (∀ c, deliver (p.1, AppState.setCurrentSessionId c p.2) e
          = ((deliver p e).1, AppState.setCurrentSessionId c (deliver p e).2)).
Proof.
  destruct (deliver_invocation p e) as (Hs & Hb & _).
  destruct (deliver_flags p e) as (Hc & _).
  repeat split; try done.
  - rewrite deliver_sessions. apply patchPlaceholder_length.
  - intros i s Hi. rewrite deliver_sessions. by apply patchPlaceholder_lookup.
  - intros s Hfind. rewrite deliver_sessions, find_patchPlaceholder, Hfind.
    eexists. split; [reflexivity|]. simpl. split.
    + apply replaceMessage_length.
    + intros j m Hj. by rewrite replaceMessage_lookup, Hj.
  - intros c. apply deliver_after_select.
Qed.

(** A whole stream delivered while another session is selected leaves
    the sessions as it would have left them otherwise. *)
Lemma run_after_select (p : Invocation.t * AppState.t) (es : list Gemini.Event)
    (c : option string) :
  foldl deliver (p.1, AppState.setCurrentSessionId c p.2) es
  = ((foldl deliver p es).1, AppState.setCurrentSessionId c (foldl deliver p es).2).
Proof.
  induction es as [|e es IH] using rev_ind.
  - done.
  - rewrite !foldl_snoc, IH.
    apply (deliver_after_select (foldl deliver p es) e c).
Qed.

(** In [threeChats], with a call started in chat "C" and chat "B"
    selected while it streams, a delta does to the sessions what it
    does with "C" still selected. *)
Lemma streaming_event_touches_only_placeholder_witness :
  deliver
    ((startOf "C" "b9" 6 7 [] (World.app threeChats)).1,
     AppState.setCurrentSessionId (Some "B")
       (startOf "C" "b9" 6 7 [] (World.app threeChats)).2)
    (Gemini.TextDelta "Hel")
  = ((deliver (startOf "C" "b9" 6 7 [] (World.app threeChats))
        (Gemini.TextDelta "Hel")).1,
     AppState.setCurrentSessionId (Some "B")
       (deliver (startOf "C" "b9" 6 7 [] (World.app threeChats))
          (Gemini.TextDelta "Hel")).2).
Proof.
  destruct (streaming_event_touches_only_placeholder
              (startOf "C" "b9" 6 7 [] (World.app threeChats)) (Gemini.TextDelta "Hel"))
    as (_ & _ & _ & _ & _ & Hsel).
  exact (Hsel (Some "B")).
Defined.

(** ** Sending and editing *)

Section Handlers.
Variable backend : Gemini.Request → Gemini.Response.

Lemma findIndex_lookup {A} (P : A → Prop) `{!∀ x, Decision (P x)}
    (l : list A) (i : nat) :
  findIndex P l = Some i → ∃ x, l !! i = Some x ∧ P x.
Proof.
  unfold findIndex. destruct (list_find P l) as [[j x]|] eqn:E; [|done].
  intros [= <-]. apply list_find_Some in E as (? & ? & _). eauto.
Qed.

(** C7. Editing the message at index [i] hands the engine the strict
    prefix before [i] followed by the edited message (same id and role,
    new content, new timestamp) as the list to show, the strict prefix
    as context and the new content as the turn text; the registry is
    written with that list and the new placeholder, so that no message
    from after index [i] is left, and the adapter is called with the
    prefix and the new content. *)
Theorem edit_truncates_then_regenerates
    (tEdit : Z) (botMsgId : string) (tMsg tUpd : Z) (newContent : string)
    (w : World.t) (cs : ChatSession.t) (i : nat) (original : ChatMessage.t) :
  currentSession (World.app w) = Some cs →
  ChatSession.messages cs !! i = Some original →
  findIndex (hasMessageId (ChatMessage.id original)) (ChatSession.messages cs) = Some i →
  let historyBeforeEdit := take i (ChatSession.messages cs) in
  let updatedMsg :=
    ChatMessage.mk (ChatMessage.id original) (ChatMessage.role original) newContent
      tEdit (ChatMessage.isReasoning original) (ChatMessage.groundingMetadata original)
      (ChatMessage.isThinking original) in
  handleEditMessage backend tEdit botMsgId tMsg tUpd (ChatMessage.id original) newContent w
  = generateResponse backend botMsgId tMsg tUpd
      (historyBeforeEdit ++ [updatedMsg]) historyBeforeEdit newContent w
  ∧ length (historyBeforeEdit ++ [updatedMsg]) = S i
  ∧ (∀ j, j < i → (historyBeforeEdit ++ [updatedMsg]) !! j = ChatSession.messages cs !! j)
  ∧ ∀ sid,
      truthy (AppState.currentSessionId (World.app w)) = Some sid →
      holdsSession sid (World.app w) →
      (∃ p s,
         start botMsgId tMsg tUpd (historyBeforeEdit ++ [updatedMsg]) (World.app w) = Some p
         ∧ find (hasSessionId sid) (AppState.sessions p.2) = Some s
         ∧ ChatSession.messages s
           = historyBeforeEdit
             ++ [updatedMsg; placeholderAtStart botMsgId tMsg (World.app w)])
      ∧ World.adapterCalls
          (handleEditMessage backend tEdit botMsgId tMsg tUpd
             (ChatMessage.id original) newContent w)
        = World.adapterCalls w
          ++ [Gemini.mkOptions (AppState.currentModel (World.app w)) historyBeforeEdit
                newContent (AppState.enableSearch (World.app w))
                (AppState.enableThinking (World.app w))].
Proof.
  intros Hcs Hi Hidx historyBeforeEdit updatedMsg.
  assert (i < length (ChatSession.messages cs)) as Hlt by by eapply lookup_lt_Some.
  assert (handleEditMessage backend tEdit botMsgId tMsg tUpd
            (ChatMessage.id original) newContent w
          = generateResponse backend botMsgId tMsg tUpd
              (historyBeforeEdit ++ [updatedMsg]) historyBeforeEdit newContent w) as Heq.
  { unfold handleEditMessage. by rewrite Hcs, Hidx, Hi. }
  split; [exact Heq|]. split; [|split].
  - subst historyBeforeEdit. rewrite length_app, length_take. simpl. lia.
  - intros j Hj. subst historyBeforeEdit.
    rewrite lookup_app_l by (rewrite length_take; lia).
    by apply lookup_take_lt.
  - intros sid Hc [s Hs]. split.
    + eexists _, _. split; [by apply start_Some|]. cbn [snd].
      rewrite startState_session, Hs. simpl. split; [reflexivity|].
      by rewrite <- app_assoc.
    + rewrite Heq. by eapply generateResponse_calls.
Qed.

(** C10. With [n > 0] attached files, the turn text of the adapter call
    is the annotated string, the text followed by an empty line and
    "[Attached n file(s)]", which differs from the composer text and
    is the last entry of the contents sent to the backend; of the files
    only their number enters the call and the new state. *)
Theorem attachments_annotate_the_prompt
    (userMsgId : string) (tUser : Z) (botMsgId : string) (tMsg tUpd : Z)
    (text : string) (files : list File.t) (w : World.t)
    (cs : ChatSession.t) (sid : string) :
  currentSession (World.app w) = Some cs →
  truthy (AppState.currentSessionId (World.app w)) = Some sid →
  0 < length files →
  World.adapterCalls
    (handleSendMessage backend userMsgId tUser botMsgId tMsg tUpd text files w)
  = World.adapterCalls w
    ++ [Gemini.mkOptions (AppState.currentModel (World.app w)) (ChatSession.messages cs)
          (text +:+ newline +:+ newline
           +:+ "[Attached " +:+ pretty (length files) +:+ " file(s)]")
          (AppState.enableSearch (World.app w))
          (AppState.enableThinking (World.app w))]
  ∧ Gemini.contents
      (Gemini.buildRequest
         (Gemini.mkOptions (AppState.currentModel (World.app w))
            (ChatSession.messages cs)
            (text +:+ newline +:+ newline
             +:+ "[Attached " +:+ pretty (length files) +:+ " file(s)]")
            (AppState.enableSearch (World.app w))
            (AppState.enableThinking (World.app w))))
    = Gemini.formatHistory (ChatSession.messages cs)
      ++ [Gemini.mkContent User
            [text +:+ newline +:+ newline
             +:+ "[Attached " +:+ pretty (length files) +:+ " file(s)]"]]
  ∧ text +:+ newline +:+ newline
    +:+ "[Attached " +:+ pretty (length files) +:+ " file(s)]" ≠ text
  ∧ ∀ files', length files' = length files →
      handleSendMessage backend userMsgId tUser botMsgId tMsg tUpd text files' w
      = handleSendMessage backend userMsgId tUser botMsgId tMsg tUpd text files w.
Proof.
  intros Hcs Hc Hn. split; [|split; [reflexivity|split]].
  - unfold handleSendMessage. rewrite Hcs.
    unfold displayContentOf. rewrite bool_decide_true by done.
    case_bool_decide; by erewrite generateResponse_calls.
  - intros Heq. apply (f_equal String.length) in Heq.
    rewrite length_append in Heq.
    change (String.length (newline +:+ ?x)) with (S (String.length x)) in Heq. lia.
  - intros files' Hlen. unfold handleSendMessage, displayContentOf.
    by rewrite Hlen.
Qed.

End Handlers.

(** The scenario of the specification: in a chat holding "hi" and its
    answer, the first message is edited to "hey". *)
Lemma edit_truncates_then_regenerates_witness :
  handleEditMessage helloBackend 20 "b2" 21 22 (ChatMessage.id hiMessage) "hey" afterHello
  = generateResponse helloBackend "b2" 21 22
      (take 0 (ChatSession.messages helloSession)
       ++ [ChatMessage.mk (ChatMessage.id hiMessage) (ChatMessage.role hiMessage) "hey" 20
             (ChatMessage.isReasoning hiMessage) (ChatMessage.groundingMetadata hiMessage)
             (ChatMessage.isThinking hiMessage)])
      (take 0 (ChatSession.messages helloSession)) "hey" afterHello
  ∧ take 0 (ChatSession.messages helloSession)
    ++ [ChatMessage.mk (ChatMessage.id hiMessage) (ChatMessage.role hiMessage) "hey" 20
          (ChatMessage.isReasoning hiMessage) (ChatMessage.groundingMetadata hiMessage)
          (ChatMessage.isThinking hiMessage)]
    = [ChatMessage.mk "u1" User "hey" 20 None None None].
Proof.
  destruct (edit_truncates_then_regenerates helloBackend 20 "b2" 21 22 "hey"
              afterHello helloSession 0 hiMessage) as (Heq & _).
  - reflexivity.
  - reflexivity.
  - reflexivity.
  - split; [exact Heq|reflexivity].
Defined.

Lemma attachments_annotate_the_prompt_witness :
  World.adapterCalls
    (handleSendMessage helloBackend "u1" 11 "b1" 12 13 "hi"
       [File.mk "a.png" "xx"; File.mk "b.txt" "yy"] firstVisit)
  = World.adapterCalls firstVisit
    ++ [Gemini.mkOptions (AppState.currentModel (World.app firstVisit))
          (ChatSession.messages (ChatSession.mk "s1" "New Chat" [] 10))
          ("hi" +:+ newline +:+ newline
           +:+ "[Attached "
           +:+ pretty (length [File.mk "a.png" "xx"; File.mk "b.txt" "yy"])
           +:+ " file(s)]")
          (AppState.enableSearch (World.app firstVisit))
          (AppState.enableThinking (World.app firstVisit))].
Proof.
  destruct (attachments_annotate_the_prompt helloBackend "u1" 11 "b1" 12 13 "hi"
              [File.mk "a.png" "xx"; File.mk "b.txt" "yy"] firstVisit
              (ChatSession.mk "s1" "New Chat" [] 10) "s1") as (Hcall & _).
  - reflexivity.
  - reflexivity.
  - simpl. lia.
  - exact Hcall.
Defined.

(** The annotation for two files, written out. *)
Example attachmentNote_two_files :
  attachmentNote "hi" 2
  = String "h" (String "i" (String "010" (String "010" "[Attached 2 file(s)]"))).
Proof. reflexivity. Qed.

(** ** The session registry *)

Lemma filter_length_lt {A} (P : A → Prop) `{!∀ x, Decision (P x)} (l : list A) (x : A) :
  x ∈ l → ¬ P x → length (filter P l) < length l.
Proof.
  intros Hx HP. induction l as [|y l IH]; [by apply elem_of_nil in Hx|].
  rewrite filter_cons. apply elem_of_cons in Hx as [<-|Hx].
  - rewrite decide_False by done. pose proof (length_filter P l). simpl. lia.
  - specialize (IH Hx). case_decide; simpl; lia.
Qed.

Lemma deleteSession_sessions (sid : string) (st : AppState.t) :
  AppState.sessions (deleteSession sid st)
  = filter (λ s, ChatSession.id s ≠ sid) (AppState.sessions st).
Proof. unfold deleteSession. by case_bool_decide. Qed.

Lemma deleteSession_current (sid : string) (st : AppState.t) :
  AppState.currentSessionId st = Some sid →
  AppState.currentSessionId (deleteSession sid st) = None.
Proof. intros Hc. unfold deleteSession. by rewrite bool_decide_true. Qed.

Lemma deleteSession_other (sid : string) (st : AppState.t) :
  AppState.currentSessionId st ≠ Some sid →
  AppState.currentSessionId (deleteSession sid st) = AppState.currentSessionId st.
Proof. intros Hc. unfold deleteSession. by rewrite bool_decide_false. Qed.

(** C3, as the code has it. Deleting the current session leaves, when
    no session remains, exactly one session, new, empty, titled
    "New Chat" and current; when sessions remain, the stored list is
    the remaining ones and the first of them in stored order is
    current. *)
Theorem delete_current_restores
    (uuid : string) (now : Z) (sid : string) (st : AppState.t) (victim : ChatSession.t) :
  AppState.currentSessionId st = Some sid →
  victim ∈ AppState.sessions st →
  ChatSession.id victim = sid →
  match filter (λ s, ChatSession.id s ≠ sid) (AppState.sessions st) with
  | [] =>
      AppState.sessions (deleteSessionAndRestore uuid now sid st)
      = [ChatSession.mk uuid "New Chat" [] now]
      ∧ AppState.currentSessionId (deleteSessionAndRestore uuid now sid st) = Some uuid
  | s :: rest =>
      AppState.sessions (deleteSessionAndRestore uuid now sid st) = s :: rest
      ∧ AppState.currentSessionId (deleteSessionAndRestore uuid now sid st)
        = Some (ChatSession.id s)
  end.
Proof.
  intros Hc Hv Hid.
  assert (length (filter (λ s, ChatSession.id s ≠ sid) (AppState.sessions st))
          < length (AppState.sessions st)) as Hlt.
  { apply (filter_length_lt _ _ victim); [done|]. intros Hne. by apply Hne. }
  pose proof (deleteSession_sessions sid st) as Hs1.
  pose proof (deleteSession_current sid st Hc) as Hc1.
  unfold deleteSessionAndRestore, afterRender.
  rewrite bool_decide_false by (rewrite Hs1; lia).
  unfold restoreEffect, createNewSession. rewrite Hc1, Hs1. simpl.
  destruct (filter _ (AppState.sessions st)) as [|s rest] eqn:E; simpl.
  - by rewrite ?Hs1, ?E.
  - by rewrite ?Hs1, ?E.
Qed.

(** Deleting the only session, and deleting the selected one of two. *)
Lemma delete_current_restores_witness :
  (AppState.sessions (deleteSessionAndRestore "N" 9 "s1" (World.app firstVisit))
   = [ChatSession.mk "N" "New Chat" [] 9]
   ∧ AppState.currentSessionId (deleteSessionAndRestore "N" 9 "s1" (World.app firstVisit))
     = Some "N")
  ∧ (AppState.sessions (deleteSessionAndRestore "N" 9 "B" twoChats)
     = [ChatSession.mk "A" "New Chat" [] 0]
     ∧ AppState.currentSessionId (deleteSessionAndRestore "N" 9 "B" twoChats)
       = Some "A").
Proof.
  split.
  - apply (delete_current_restores "N" 9 "s1" (World.app firstVisit)
             (ChatSession.mk "s1" "New Chat" [] 10)).
    + reflexivity.
    + apply list_elem_of_here.
    + reflexivity.
  - apply (delete_current_restores "N" 9 "B" twoChats
             (ChatSession.mk "B" "New Chat" [] 1)).
    + reflexivity.
    + apply list_elem_of_here.
    + reflexivity.
Defined.

(** C3, as stated, fails: in [threeChats] the chat "C" is selected and
    the chat "A" is the most recently updated of the other two; after
    "C" is deleted the chat "B" is current, whose [updatedAt] is the
    smaller one. *)
Lemma most_recently_updated_not_selected :
  AppState.currentSessionId (World.app threeChats) = Some "C"
  ∧ AppState.currentSessionId (deleteSessionAndRestore "N" 9 "C" (World.app threeChats))
    = Some "B"
  ∧ ChatSession.id
      <$> mostRecentlyUpdated (deleteSessionAndRestore "N" 9 "C" (World.app threeChats))
    = Some "A"
  ∧ ChatSession.updatedAt
      <$> find (hasSessionId "B")
            (AppState.sessions (deleteSessionAndRestore "N" 9 "C" (World.app threeChats)))
    = Some 1%Z
  ∧ ChatSession.updatedAt
      <$> find (hasSessionId "A")
            (AppState.sessions (deleteSessionAndRestore "N" 9 "C" (World.app threeChats)))
    = Some 5%Z.
Proof. vm_compute. repeat split. Qed.

(** The effect that follows the one which created a session finds a
    session and a selection, and does nothing. *)
Lemma restoreEffect_settled (uuid uuid' : string) (now now' : Z) (st : AppState.t) :
  AppState.sessions st = [] →
  restoreEffect uuid' now' (restoreEffect uuid now st) = restoreEffect uuid now st.
Proof.
  intros Hs.
  assert (restoreEffect uuid now st = createNewSession uuid now st) as ->.
  { unfold restoreEffect. by rewrite Hs. }
  unfold restoreEffect. simpl. by destruct uuid.
Qed.

(** Deleting a session that is not the current one leaves the current
    id as it is. *)
Lemma delete_other_keeps_current (uuid : string) (now : Z) (sid cur : string)
    (st : AppState.t) (s : ChatSession.t) :
  truthy (AppState.currentSessionId st) = Some cur →
  cur ≠ sid →
  s ∈ AppState.sessions st →
  ChatSession.id s = cur →
  AppState.currentSessionId (deleteSessionAndRestore uuid now sid st) = Some cur.
Proof.
  intros Hc Hne Hs Hid. apply truthy_Some in Hc as [Hc Hcur].
  assert (AppState.currentSessionId (deleteSession sid st) = Some cur) as Hc1.
  { rewrite deleteSession_other; [done|]. rewrite Hc. congruence. }
  assert (s ∈ AppState.sessions (deleteSession sid st)) as Hs1.
  { rewrite deleteSession_sessions. apply list_elem_of_filter. split; [congruence|done]. }
  unfold deleteSessionAndRestore, afterRender. case_bool_decide; [done|].
  unfold restoreEffect.
  destruct (AppState.sessions (deleteSession sid st)) as [|s0 rest] eqn:E.
  { by apply elem_of_nil in Hs1. }
  simpl. rewrite Hc1. by destruct cur.
Qed.

(** * Further properties of the registry *)

Section Registry.

Lemma registryOk_fmap (g : ChatSession.t → ChatSession.t) (st st' : AppState.t) :
  (∀ s, ChatSession.id (g s) = ChatSession.id s) →
  AppState.sessions st' = g <$> AppState.sessions st →
  AppState.currentSessionId st' = AppState.currentSessionId st →
  registryOk st → registryOk st'.
Proof.
  intros Hg Hs Hc [Hids (s & Hin & Hcur)]. split.
  - rewrite Hs. apply Forall_fmap. eapply Forall_impl; [exact Hids|].
    intros x Hx. simpl. by rewrite Hg.
  - exists (g s). split.
    + rewrite Hs. by apply list_elem_of_fmap_2.
    + by rewrite Hc, Hg.
Qed.

Lemma registryOk_same (st st' : AppState.t) :
  AppState.sessions st' = AppState.sessions st →
  AppState.currentSessionId st' = AppState.currentSessionId st →
  registryOk st → registryOk st'.
Proof.
  intros Hs Hc. apply (registryOk_fmap (λ s, s)); [done| |done].
  by rewrite list_fmap_id.
Qed.

Lemma Forall_filter_keep {A} (P Q : A → Prop) `{!∀ x, Decision (P x)} (l : list A) :
  Forall Q l → Forall Q (filter P l).
Proof.
  rewrite !Forall_forall. intros HQ x Hx.
  apply list_elem_of_filter in Hx as [_ Hx]. by apply HQ.
Qed.

Lemma truthy_nonempty (c : string) : c ≠ EmptyString → truthy (Some c) = Some c.
Proof. by destruct c. Qed.

(** Deleting a session other than the current one runs no restoration:
    the effect, if it runs at all, finds a session and a selection. *)
Lemma delete_other_is_plain (uuid : string) (now : Z) (sid cur : string)
    (st : AppState.t) (s : ChatSession.t) :
  truthy (AppState.currentSessionId st) = Some cur →
  cur ≠ sid →
  s ∈ AppState.sessions st →
  ChatSession.id s = cur →
  deleteSessionAndRestore uuid now sid st = deleteSession sid st.
Proof.
  intros Hc Hne Hs Hid. pose proof Hc as Hc'. apply truthy_Some in Hc' as [Hcur Hnon].
  assert (AppState.currentSessionId (deleteSession sid st) = Some cur) as Hc1.
  { rewrite deleteSession_other; [done|]. rewrite Hcur. congruence. }
  assert (s ∈ AppState.sessions (deleteSession sid st)) as Hs1.
  { rewrite deleteSession_sessions. apply list_elem_of_filter. split; [congruence|done]. }
  unfold deleteSessionAndRestore, afterRender. case_bool_decide; [done|].
  unfold restoreEffect.
  destruct (AppState.sessions (deleteSession sid st)) as [|s0 rest] eqn:E.
  { by apply elem_of_nil in Hs1. }
  simpl. rewrite Hc1. by rewrite truthy_nonempty.
Qed.

(** Deleting the current session: the effect runs on what is left. *)
Lemma delete_current_effect (uuid : string) (now : Z) (sid : string)
    (st : AppState.t) (victim : ChatSession.t) :
  AppState.currentSessionId st = Some sid →
  victim ∈ AppState.sessions st →
  ChatSession.id victim = sid →
  deleteSessionAndRestore uuid now sid st
  = restoreEffect uuid now (deleteSession sid st)
  ∧ AppState.currentSessionId (deleteSession sid st) = None.
Proof.
  intros Hc Hv Hid.
  assert (length (filter (λ s, ChatSession.id s ≠ sid) (AppState.sessions st))
          < length (AppState.sessions st)) as Hlt.
  { apply (filter_length_lt _ _ victim); [done|]. intros Hne. by apply Hne. }
  split; [|by apply deleteSession_current].
  unfold deleteSessionAndRestore, afterRender.
  rewrite bool_decide_false; [done|]. rewrite deleteSession_sessions. lia.
Qed.

(** X1. The registry keeps a selection: from a state in which every
    session has a non-empty id and the current id names a session, the
    same holds after a new chat, after any deletion with the effect
    that follows it, after a click on a listed session, after a write
    of messages or of a title; and it holds after the first effect on
    what was read from the store. *)
Theorem registry_keeps_a_selection (st : AppState.t) :
  registryOk st →
  (∀ uuid now, uuid ≠ EmptyString → registryOk (createNewSession uuid now st))
  ∧ (∀ uuid now sid, uuid ≠ EmptyString →
       registryOk (deleteSessionAndRestore uuid now sid st))
  ∧ (∀ s, s ∈ AppState.sessions st →
       registryOk (AppState.setCurrentSessionId (Some (ChatSession.id s)) st))
  ∧ (∀ sid msgs now, registryOk (updateSessionMessages sid msgs now st))
  ∧ (∀ sid ttl, registryOk (updateSessionTitle sid ttl st))
  ∧ (∀ stored uuid now,
       uuid ≠ EmptyString →
       Forall (λ s, ChatSession.id s ≠ EmptyString) stored →
       registryOk (restoreEffect uuid now (loaded stored))).
Proof.
  intros Hok. pose proof Hok as [Hids (s & Hin & Hcur)].
  split; [|split; [|split; [|split; [|split]]]].
  - intros uuid now Hu. split.
    + simpl. by constructor.
    + eexists. split; [apply list_elem_of_here|done].
  - intros uuid now sid Hu.
    destruct (decide (ChatSession.id s = sid)) as [Heq|Hne].
    + assert (AppState.currentSessionId st = Some sid) as Hcs by by rewrite Hcur, Heq.
      destruct (delete_current_effect uuid now sid st s Hcs Hin Heq) as [-> Hnone].
      pose proof (deleteSession_sessions sid st) as Hs1.
      unfold restoreEffect. rewrite Hnone.
      destruct (AppState.sessions (deleteSession sid st)) as [|s0 rest] eqn:E; simpl.
      * split; simpl; rewrite E.
        -- by repeat constructor.
        -- eexists. split; [apply list_elem_of_here|done].
      * split; simpl; rewrite E.
        -- rewrite Hs1. by apply Forall_filter_keep.
        -- exists s0. split; [apply list_elem_of_here|done].
    + assert (ChatSession.id s ≠ EmptyString) as Hnon.
      { by eapply (proj1 (Forall_forall _ _) Hids). }
      rewrite (delete_other_is_plain uuid now sid (ChatSession.id s) st s);
        [|by rewrite Hcur, truthy_nonempty|done|done|done].
      split.
      * rewrite deleteSession_sessions. by apply Forall_filter_keep.
      * exists s. split.
        -- rewrite deleteSession_sessions. by apply list_elem_of_filter.
        -- rewrite deleteSession_other; [done|]. rewrite Hcur. congruence.
  - intros s' Hs'. split; [done|]. by exists s'.
  - intros sid msgs now.
    eapply (registryOk_fmap _ st); [|reflexivity|reflexivity|done].
    intros x. simpl. by case_decide.
  - intros sid ttl.
    eapply (registryOk_fmap _ st); [|reflexivity|reflexivity|done].
    intros x. simpl. by case_decide.
  - intros stored uuid now Hu Hst. unfold restoreEffect, loaded. simpl.
    destruct stored as [|s0 rest]; simpl.
    + split; [by repeat constructor|].
      eexists. split; [apply list_elem_of_here|done].
    + split; [done|]. exists s0. split; [apply list_elem_of_here|done].
Qed.

End Registry.

Lemma registry_keeps_a_selection_witness :
  registryOk (deleteSessionAndRestore "N" 9 "B" twoChats)
  ∧ registryOk (createNewSession "N" 9 twoChats).
Proof.
  assert (registryOk twoChats) as Hok.
  { split; [repeat constructor; by intros [=]|].
    eexists. split; [apply list_elem_of_here|reflexivity]. }
  destruct (registry_keeps_a_selection twoChats Hok) as (Hnew & Hdel & _).
  split; [apply Hdel|apply Hnew]; by intros [=].
Defined.

Section RegistryFrames.

Lemma AppState_eq_sessions (st : AppState.t) (f : list ChatSession.t → list ChatSession.t) :
  f (AppState.sessions st) = AppState.sessions st →
  AppState.setSessions f st = st.
Proof. intros H. destruct st. unfold AppState.setSessions. simpl in *. by rewrite H. Qed.

Lemma fmap_fixes {A} (g : A → A) (l : list A) :
  Forall (λ x, g x = x) l → g <$> l = l.
Proof.
  intros H. rewrite <- (list_fmap_id l) at 2. by apply Forall_fmap_ext_1.
Qed.

Lemma filter_keeps_all {A} (P : A → Prop) `{!∀ x, Decision (P x)} (l : list A) :
  Forall P l → filter P l = l.
Proof.
  induction 1 as [|x l Hx _ IH]; [done|].
  rewrite filter_cons, decide_True by done. by rewrite IH.
Qed.

Lemma find_absent {A} (P : A → Prop) `{!∀ x, Decision (P x)} (l : list A) :
  Forall (λ x, ¬ P x) l → find P l = None.
Proof.
  intros Hl. unfold find. by rewrite (proj2 (list_find_None P l) Hl).
Qed.

(** X2. Deleting a session that is not the current one leaves the
    current id, the busy flag and the settings as they were, and the
    list is the old one without the sessions of the deleted id: every
    other session stays, unchanged and in order. *)
Theorem delete_other_session_frame (uuid : string) (now : Z) (sid cur : string)
    (st : AppState.t) (s : ChatSession.t) :
  truthy (AppState.currentSessionId st) = Some cur →
  cur ≠ sid →
  s ∈ AppState.sessions st →
  ChatSession.id s = cur →
  AppState.sessions (deleteSessionAndRestore uuid now sid st)
  = filter (λ x, ChatSession.id x ≠ sid) (AppState.sessions st)
  ∧ (∀ x, x ∈ AppState.sessions (deleteSessionAndRestore uuid now sid st)
          ↔ x ∈ AppState.sessions st ∧ ChatSession.id x ≠ sid)
  ∧ AppState.currentSessionId (deleteSessionAndRestore uuid now sid st) = Some cur
  ∧ AppState.isLoading (deleteSessionAndRestore uuid now sid st) = AppState.isLoading st
  ∧ AppState.currentModel (deleteSessionAndRestore uuid now sid st)
    = AppState.currentModel st.
Proof.
  intros Hc Hne Hs Hid.
  rewrite (delete_other_is_plain uuid now sid cur st s Hc Hne Hs Hid).
  apply truthy_Some in Hc as [Hc _].
  split; [apply deleteSession_sessions|]. split; [|split; [|split]].
  - intros x. rewrite deleteSession_sessions, list_elem_of_filter. tauto.
  - rewrite deleteSession_other; [done|]. rewrite Hc. congruence.
  - unfold deleteSession. by case_bool_decide.
  - unfold deleteSession. by case_bool_decide.
Qed.

(** X3. An id that no session has is a no-op everywhere: a write of
    messages or of a title for it, a callback or the error notice of a
    call whose session is gone, and (when it is not the current id) a
    deletion, all return the state they were given. *)
Theorem stale_id_changes_nothing (sid : string) (st : AppState.t) :
  Forall (λ s, ChatSession.id s ≠ sid) (AppState.sessions st) →
  (∀ msgs now, updateSessionMessages sid msgs now st = st)
  ∧ (∀ ttl, updateSessionTitle sid ttl st = st)
  ∧ (∀ inv e, Invocation.currentSessionId inv = sid → (deliver (inv, st) e).2 = st)
  ∧ (∀ inv, Invocation.currentSessionId inv = sid → onError inv st = st)
  ∧ (∀ uuid now, AppState.currentSessionId st ≠ Some sid →
       deleteSessionAndRestore uuid now sid st = st).
Proof.
  intros Hno.
  assert (∀ bot f, patchPlaceholder sid bot f (AppState.sessions st)
                   = AppState.sessions st) as Hpatch.
  { intros bot f. unfold patchPlaceholder. by rewrite find_absent. }
  split; [|split; [|split; [|split]]].
  - intros msgs now. apply AppState_eq_sessions, fmap_fixes.
    eapply Forall_impl; [exact Hno|]. intros s Hs. simpl. by rewrite decide_False.
  - intros ttl. apply AppState_eq_sessions, fmap_fixes.
    eapply Forall_impl; [exact Hno|]. intros s Hs. simpl. by rewrite decide_False.
  - intros inv e <-. destruct e; simpl; by apply AppState_eq_sessions.
  - intros inv <-. by apply AppState_eq_sessions.
  - intros uuid now Hc.
    assert (deleteSession sid st = st) as Hd.
    { unfold deleteSession. rewrite bool_decide_false by done.
      by apply AppState_eq_sessions, filter_keeps_all. }
    unfold deleteSessionAndRestore, afterRender. rewrite Hd.
    by rewrite bool_decide_true.
Qed.

End RegistryFrames.

Lemma delete_other_session_frame_witness :
  AppState.sessions (deleteSessionAndRestore "N" 9 "A" twoChats)
  = filter (λ x, ChatSession.id x ≠ "A") (AppState.sessions twoChats)
  ∧ AppState.currentSessionId (deleteSessionAndRestore "N" 9 "A" twoChats) = Some "B".
Proof.
  destruct (delete_other_session_frame "N" 9 "A" "B" twoChats
              (ChatSession.mk "B" "New Chat" [] 1)) as (Hs & _ & Hc & _).
  - reflexivity.
  - by intros [=].
  - apply list_elem_of_here.
  - reflexivity.
  - by split.
Defined.

Lemma stale_id_changes_nothing_witness :
  updateSessionTitle "gone" "Title" twoChats = twoChats
  ∧ deleteSessionAndRestore "N" 9 "gone" twoChats = twoChats.
Proof.
  destruct (stale_id_changes_nothing "gone" twoChats) as (_ & Ht & _ & _ & Hd).
  - repeat constructor; by intros [=].
  - split; [apply Ht|apply Hd]. by intros [=].
Defined.

(** * Further properties of the generation engine *)

Section WholeSession.
Variable backend : Gemini.Request → Gemini.Response.

Lemma run_invocation p evs :
  Invocation.currentSessionId (foldl deliver p evs).1 = Invocation.currentSessionId p.1
  ∧ Invocation.botMsgId (foldl deliver p evs).1 = Invocation.botMsgId p.1
  ∧ Invocation.accumulatedText (foldl deliver p evs).1
    = Invocation.accumulatedText p.1 +:+ concatDeltas (Gemini.deltas evs).
Proof.
  induction evs as [|e evs IH] using rev_ind.
  - simpl. by rewrite append_nil_r.
  - destruct IH as (Hs & Hb & Ha). rewrite foldl_snoc.
    destruct (deliver_invocation (foldl deliver p evs) e) as (-> & -> & ->).
    rewrite Hs, Hb, Ha, deltas_snoc. repeat split.
    destruct e; simpl.
    + by rewrite concatDeltas_snoc, append_assoc.
    + by rewrite app_nil_r.
Qed.

Lemma replaceMessage_fresh bot f msgs ph :
  freshFor bot msgs →
  ChatMessage.id ph = bot →
  replaceMessage bot f (msgs ++ [ph]) = msgs ++ [f ph].
Proof.
  intros Hf Hid. unfold replaceMessage. rewrite fmap_app. f_equal.
  - apply fmap_fixes. eapply Forall_impl; [exact Hf|].
    intros m Hm. simpl. by rewrite decide_False.
  - simpl. by rewrite decide_True.
Qed.

(** The session of a call, whole, while its callbacks arrive: the
    messages written by [start] with the placeholder brought up to
    date, nothing else of the session changed. *)
Lemma run_session p evs s msgs ph :
  Invocation.accumulatedText p.1 = EmptyString →
  find (hasSessionId (Invocation.currentSessionId p.1)) (AppState.sessions p.2) = Some s →
  ChatSession.messages s = msgs ++ [ph] →
  freshFor (Invocation.botMsgId p.1) msgs →
  ChatMessage.id ph = Invocation.botMsgId p.1 →
  find (hasSessionId (Invocation.currentSessionId p.1))
    (AppState.sessions (foldl deliver p evs).2)
  = Some (ChatSession.withMessages (msgs ++ [placeholderAfter evs ph]) s).
Proof.
  intros Hacc Hs Hmsgs Hf Hid. induction evs as [|e evs IH] using rev_ind.
  - simpl. rewrite placeholderAfter_nil, Hs, <- Hmsgs. by destruct s.
  - rewrite foldl_snoc, deliver_sessions.
    destruct (run_invocation p evs) as (-> & -> & ->).
    rewrite find_patchPlaceholder, IH, Hacc. simpl.
    rewrite replaceMessage_fresh; [|done|by rewrite <- Hid].
    by rewrite placeholderAfter_snoc.
Qed.

Lemma others_after_patch sid bot f (prev : list ChatSession.t) i s :
  ChatSession.id s ≠ sid →
  prev !! i = Some s →
  patchPlaceholder sid bot f prev !! i = Some s.
Proof.
  intros Hne Hi. destruct (patchPlaceholder_lookup sid bot f prev i s Hi)
    as (s' & -> & _ & _ & _ & Heq). by rewrite Heq.
Qed.

Lemma others_after_run p evs i s :
  ChatSession.id s ≠ Invocation.currentSessionId p.1 →
  AppState.sessions p.2 !! i = Some s →
  AppState.sessions (foldl deliver p evs).2 !! i = Some s.
Proof.
  intros Hne Hi. induction evs as [|e evs IH] using rev_ind; [done|].
  rewrite foldl_snoc, deliver_sessions.
  destruct (run_invocation p evs) as (-> & _ & _).
  by apply others_after_patch.
Qed.

Lemma length_after_run p evs :
  length (AppState.sessions (foldl deliver p evs).2) = length (AppState.sessions p.2).
Proof.
  induction evs as [|e evs IH] using rev_ind; [done|].
  by rewrite foldl_snoc, deliver_sessions, patchPlaceholder_length.
Qed.

(** The session of a call and the other sessions, after the call. *)
Lemma generateResponse_session_after
    (botMsgId : string) (tMsg tUpd : Z) (msgs hist : list ChatMessage.t) (txt : string)
    (w : World.t) (sid : string) (s : ChatSession.t) :
  truthy (AppState.currentSessionId (World.app w)) = Some sid →
  find (hasSessionId sid) (AppState.sessions (World.app w)) = Some s →
  freshFor botMsgId msgs →
  find (hasSessionId sid)
    (AppState.sessions
       (World.app (generateResponse backend botMsgId tMsg tUpd msgs hist txt w)))
  = Some (ChatSession.mk (ChatSession.id s) (ChatSession.title s)
            (msgs ++ [replyOf (outcomeOf backend w hist txt)
                        (callbacksOf backend w hist txt)
                        (placeholderAtStart botMsgId tMsg (World.app w))])
            tUpd)
  ∧ length (AppState.sessions
              (World.app (generateResponse backend botMsgId tMsg tUpd msgs hist txt w)))
    = length (AppState.sessions (World.app w))
  ∧ ∀ i x, ChatSession.id x ≠ sid →
      AppState.sessions (World.app w) !! i = Some x →
      AppState.sessions
        (World.app (generateResponse backend botMsgId tMsg tUpd msgs hist txt w)) !! i
      = Some x.
Proof.
  intros Hc Hs Hf.
  rewrite (generateResponse_started _ _ _ _ _ _ _ _ _ (start_Some _ _ _ _ _ _ Hc)).
  cbn [World.app]. fold (startOf sid botMsgId tMsg tUpd msgs (World.app w)).
  set (p := startOf sid botMsgId tMsg tUpd msgs (World.app w)).
  set (evs := callbacksOf backend w hist txt).
  assert (find (hasSessionId sid) (AppState.sessions p.2)
          = Some (ChatSession.withMessagesAt
                    (msgs ++ [placeholderAtStart botMsgId tMsg (World.app w)]) tUpd s))
    as Hstart.
  { subst p. cbn [snd startOf]. by rewrite startState_session, Hs. }
  pose proof (run_session p evs _ msgs (placeholderAtStart botMsgId tMsg (World.app w))
                eq_refl Hstart eq_refl Hf eq_refl) as Hrun.
  destruct (run_invocation p evs) as (Hsid & Hbot & _).
  split; [|split].
  - unfold settle. destruct (outcomeOf backend w hist txt); simpl.
    + exact Hrun.
    + unfold onError. simpl. rewrite Hsid, Hbot. cbn [p startOf fst Invocation.currentSessionId
        Invocation.botMsgId].
      rewrite find_patchPlaceholder.
      change (Invocation.currentSessionId p.1) with sid in Hrun. rewrite Hrun. simpl.
      by rewrite replaceMessage_fresh.
  - unfold settle.
    destruct (outcomeOf backend w hist txt); simpl;
      rewrite ?patchPlaceholder_length, length_after_run;
      subst p; cbn [snd startOf]; unfold startState, updateSessionMessages; simpl;
      by rewrite length_fmap.
  - intros i x Hne Hi.
    assert (AppState.sessions p.2 !! i = Some x) as Hp.
    { subst p. cbn [snd startOf]. unfold startState, updateSessionMessages. simpl.
      rewrite list_lookup_fmap, Hi. simpl. by rewrite decide_False. }
    pose proof (others_after_run p evs i x Hne Hp) as Hafter.
    unfold settle. destruct (outcomeOf backend w hist txt); simpl; [done|].
    apply others_after_patch; [|done]. by rewrite Hsid.
Qed.

(** X4. What a whole call leaves in the registry: the session of the
    captured id holds the list handed to the call followed by one
    reply (the placeholder filled by the callbacks, or the error
    notice), it has the new [updatedAt] and its old id and title; the
    list has its old length and every session with another id is at
    its place, unchanged. *)
Theorem generateResponse_writes_one_reply
    (botMsgId : string) (tMsg tUpd : Z) (msgs hist : list ChatMessage.t) (txt : string)
    (w : World.t) (sid : string) (s : ChatSession.t) :
  truthy (AppState.currentSessionId (World.app w)) = Some sid →
  find (hasSessionId sid) (AppState.sessions (World.app w)) = Some s →
  freshFor botMsgId msgs →
  find (hasSessionId sid)
    (AppState.sessions
       (World.app (generateResponse backend botMsgId tMsg tUpd msgs hist txt w)))
  = Some (ChatSession.mk (ChatSession.id s) (ChatSession.title s)
            (msgs ++ [replyOf (outcomeOf backend w hist txt)
                        (callbacksOf backend w hist txt)
                        (placeholderAtStart botMsgId tMsg (World.app w))])
            tUpd)
  ∧ length (AppState.sessions
              (World.app (generateResponse backend botMsgId tMsg tUpd msgs hist txt w)))
    = length (AppState.sessions (World.app w))
  ∧ ∀ i x, ChatSession.id x ≠ sid →
      AppState.sessions (World.app w) !! i = Some x →
      AppState.sessions
        (World.app (generateResponse backend botMsgId tMsg tUpd msgs hist txt w)) !! i
      = Some x.
Proof. exact (generateResponse_session_after botMsgId tMsg tUpd msgs hist txt w sid s). Qed.

End WholeSession.

Section Sending.
Variable backend : Gemini.Request → Gemini.Response.

Lemma currentSession_found (st : AppState.t) (sid : string) (cs : ChatSession.t) :
  truthy (AppState.currentSessionId st) = Some sid →
  find (hasSessionId sid) (AppState.sessions st) = Some cs →
  currentSession st = Some cs.
Proof.
  intros Hc Hs. apply truthy_Some in Hc as [Hc _].
  unfold currentSession. rewrite Hc. simpl. by rewrite Hs.
Qed.

(** The session, the adapter call and the title request of a send. *)
Lemma handleSendMessage_session_after
    (userMsgId : string) (tUser : Z) (botMsgId : string) (tMsg tUpd : Z)
    (text : string) (files : list File.t) (w : World.t)
    (sid : string) (cs : ChatSession.t) :
  truthy (AppState.currentSessionId (World.app w)) = Some sid →
  find (hasSessionId sid) (AppState.sessions (World.app w)) = Some cs →
  freshFor botMsgId (ChatSession.messages cs) →
  botMsgId ≠ userMsgId →
  find (hasSessionId sid)
    (AppState.sessions
       (World.app
          (handleSendMessage backend userMsgId tUser botMsgId tMsg tUpd text files w)))
  = Some (ChatSession.mk (ChatSession.id cs) (ChatSession.title cs)
            (ChatSession.messages cs
             ++ [ChatMessage.mk userMsgId User (displayContentOf text files) tUser
                   None None None;
                 replyOf
                   (outcomeOf backend w (ChatSession.messages cs)
                      (displayContentOf text files))
                   (callbacksOf backend w (ChatSession.messages cs)
                      (displayContentOf text files))
                   (placeholderAtStart botMsgId tMsg (World.app w))])
            tUpd)
  ∧ World.adapterCalls
      (handleSendMessage backend userMsgId tUser botMsgId tMsg tUpd text files w)
    = World.adapterCalls w
      ++ [streamOptions (World.app w) (ChatSession.messages cs)
            (displayContentOf text files)]
  ∧ World.titleRequests
      (handleSendMessage backend userMsgId tUser botMsgId tMsg tUpd text files w)
    = World.titleRequests w
      ++ (if bool_decide (length (ChatSession.messages cs) = 0)
          then [(ChatSession.id cs, titlePrompt text)] else [])
  ∧ titlePrompt text ≠ EmptyString.
Proof.
  intros Hc Hs Hf Hne.
  assert (freshFor botMsgId
            (ChatSession.messages cs
             ++ [ChatMessage.mk userMsgId User (displayContentOf text files) tUser
                   None None None])) as Hf'.
  { apply Forall_app. split; [done|]. apply Forall_singleton.
    unfold hasMessageId. simpl. congruence. }
  unfold handleSendMessage. rewrite (currentSession_found _ _ _ Hc Hs).
  case_bool_decide.
  - set (w1 := World.mk _ _ _).
    destruct (generateResponse_session_after backend botMsgId tMsg tUpd _
                (ChatSession.messages cs) (displayContentOf text files) w1 sid cs
                Hc Hs Hf') as (Hfind & _ & _).
    split; [|split; [|split]].
    + rewrite Hfind. by rewrite <- app_assoc.
    + by erewrite generateResponse_calls.
    + by erewrite generateResponse_started by by apply start_Some.
    + by destruct text.
  - destruct (generateResponse_session_after backend botMsgId tMsg tUpd _
                (ChatSession.messages cs) (displayContentOf text files) w sid cs
                Hc Hs Hf') as (Hfind & _ & _).
    split; [|split; [|split]].
    + rewrite Hfind. by rewrite <- app_assoc.
    + by erewrite generateResponse_calls.
    + erewrite generateResponse_started by by apply start_Some.
      simpl. by rewrite app_nil_r.
    + by destruct text.
Qed.

(** X5. A send in the selected session appends one exchange: the
    session then holds its old messages, then the user message with the
    shown text, then one reply; the adapter got the old messages as
    history, without the new message; and a title is requested exactly
    when the session had no message, for the typed text or, when that
    is empty, for "Attachment". *)
Theorem handleSendMessage_appends_exchange
    (userMsgId : string) (tUser : Z) (botMsgId : string) (tMsg tUpd : Z)
    (text : string) (files : list File.t) (w : World.t)
    (sid : string) (cs : ChatSession.t) :
  truthy (AppState.currentSessionId (World.app w)) = Some sid →
  find (hasSessionId sid) (AppState.sessions (World.app w)) = Some cs →
  freshFor botMsgId (ChatSession.messages cs) →
  botMsgId ≠ userMsgId →
  find (hasSessionId sid)
    (AppState.sessions
       (World.app
          (handleSendMessage backend userMsgId tUser botMsgId tMsg tUpd text files w)))
  = Some (ChatSession.mk (ChatSession.id cs) (ChatSession.title cs)
            (ChatSession.messages cs
             ++ [ChatMessage.mk userMsgId User (displayContentOf text files) tUser
                   None None None;
                 replyOf
                   (outcomeOf backend w (ChatSession.messages cs)
                      (displayContentOf text files))
                   (callbacksOf backend w (ChatSession.messages cs)
                      (displayContentOf text files))
                   (placeholderAtStart botMsgId tMsg (World.app w))])
            tUpd)
  ∧ World.adapterCalls
      (handleSendMessage backend userMsgId tUser botMsgId tMsg tUpd text files w)
    = World.adapterCalls w
      ++ [streamOptions (World.app w) (ChatSession.messages cs)
            (displayContentOf text files)]
  ∧ World.titleRequests
      (handleSendMessage backend userMsgId tUser botMsgId tMsg tUpd text files w)
    = World.titleRequests w
      ++ (if bool_decide (length (ChatSession.messages cs) = 0)
          then [(ChatSession.id cs, titlePrompt text)] else [])
  ∧ titlePrompt text ≠ EmptyString.
Proof.
  exact (handleSendMessage_session_after userMsgId tUser botMsgId tMsg tUpd text files
           w sid cs).
Qed.


(** X7. An edit starts nothing, and leaves everything as it was, when
    no session id is selected, when there is no session at all, or when
    no message of the current session has the given id. *)
Theorem edit_without_target_is_noop
    (tEdit : Z) (botMsgId : string) (tMsg tUpd : Z) (messageId newContent : string)
    (w : World.t) :
  truthy (AppState.currentSessionId (World.app w)) = None
  ∨ currentSession (World.app w) = None
  ∨ (∃ cs, currentSession (World.app w) = Some cs
           ∧ Forall (λ m, ChatMessage.id m ≠ messageId) (ChatSession.messages cs)) →
  handleEditMessage backend tEdit botMsgId tMsg tUpd messageId newContent w = w.
Proof.
  intros [Hc|[Hn|(cs & Hcs & Hno)]]; unfold handleEditMessage.
  - destruct (currentSession (World.app w)) as [cs|]; [|done].
    destruct (findIndex _ _) as [i|]; [|done].
    destruct (ChatSession.messages cs !! i); [|done].
    by rewrite generateResponse_not_started.
  - by rewrite Hn.
  - rewrite Hcs. unfold findIndex.
    by rewrite (proj2 (list_find_None _ _) Hno).
Qed.

End Sending.

Section Metadata.
Variable backend : Gemini.Request → Gemini.Response.

Lemma lastGrounding_of_chunks (cs : list Gemini.Chunk) :
  lastGrounding (cs ≫= Gemini.chunkEvents) = last (omap Gemini.metadata cs).
Proof.
  unfold lastGrounding. f_equal.
  induction cs as [|c cs IH]; [done|].
  rewrite bind_cons, bind_app, IH. simpl. unfold Gemini.chunkEvents.
  destruct (truthy (Gemini.text c)), (Gemini.metadata c); done.
Qed.

(** X8. Grounding metadata is last-write-wins: after a call, whether it
    ended normally or with the error notice, the reply carries the
    metadata of the last chunk of the stream that had any, unmerged,
    and none when no chunk had any; text deltas do not touch it. *)
Theorem grounding_is_last_write_wins
    (botMsgId : string) (tMsg tUpd : Z) (msgs hist : list ChatMessage.t) (txt : string)
    (w : World.t) (sid : string) :
  truthy (AppState.currentSessionId (World.app w)) = Some sid →
  holdsSession sid (World.app w) →
  freshFor botMsgId msgs →
  ∃ m, placeholder sid botMsgId
         (World.app (generateResponse backend botMsgId tMsg tUpd msgs hist txt w))
       = Some m
       ∧ ChatMessage.groundingMetadata m
         = last (omap Gemini.metadata
                   (Gemini.chunks
                      (backend
                         (Gemini.buildRequest (streamOptions (World.app w) hist txt))))).
Proof.
  intros Hc Hs Hf.
  destruct (generateResponse_placeholder backend botMsgId tMsg tUpd msgs hist txt w sid
              Hc Hs) as (m0 & Hm0 & _ & Hfin).
  rewrite (Hm0 Hf) in Hfin. eexists. split; [exact Hfin|].
  rewrite <- lastGrounding_of_chunks.
  change (Gemini.chunks _ ≫= Gemini.chunkEvents) with (callbacksOf backend w hist txt).
  destruct (outcomeOf backend w hist txt); simpl;
    by destruct (lastGrounding (callbacksOf backend w hist txt)).
Qed.

(** X9. The reply is marked as coming from the reasoning model exactly
    when the request of the same call carries the thinking budget of
    16000: on the pro tier with thinking enabled, and in no other
    case. *)
Theorem reasoning_mark_matches_budget
    (botMsgId : string) (tMsg tUpd : Z) (msgs hist : list ChatMessage.t) (txt : string)
    (w : World.t) (sid : string) :
  truthy (AppState.currentSessionId (World.app w)) = Some sid →
  holdsSession sid (World.app w) →
  freshFor botMsgId msgs →
  ∃ m b,
    placeholder sid botMsgId
      (World.app (generateResponse backend botMsgId tMsg tUpd msgs hist txt w))
    = Some m
    ∧ ChatMessage.isReasoning m = Some b
    ∧ (b = true
       ↔ Gemini.thinkingConfig
           (Gemini.buildRequest (streamOptions (World.app w) hist txt))
         = Some (Gemini.mkThinking 16000))
    ∧ (b = true
       ↔ AppState.currentModel (World.app w) = PRO
         ∧ AppState.enableThinking (World.app w) = true).
Proof.
  intros Hc Hs Hf.
  destruct (generateResponse_placeholder backend botMsgId tMsg tUpd msgs hist txt w sid
              Hc Hs) as (m0 & Hm0 & _ & Hfin).
  rewrite (Hm0 Hf) in Hfin. do 2 eexists. split; [exact Hfin|].
  split; [by destruct (outcomeOf backend w hist txt)|].
  unfold streamOptions, Gemini.buildRequest, Gemini.thinkingConfigOf. simpl.
  destruct (AppState.currentModel (World.app w)), (AppState.enableThinking (World.app w));
    simpl; split; split; try done; try (by intros [? ?]).
Qed.

End Metadata.

(** * Titles *)

Section Titles.
Variable titleBackend : GeminiTitle.Request → GeminiTitle.Answer.








End Titles.

(** * A call in flight and the rest of the application *)

Section InFlight.

Lemma patchPlaceholder_fmap (g : ChatSession.t → ChatSession.t) sid bot f
    (l : list ChatSession.t) :
  (∀ s, ChatSession.id (g s) = ChatSession.id s) →
  (∀ s, ChatSession.messages (g s) = ChatSession.messages s) →
  (∀ ms s, g (ChatSession.withMessages ms s) = ChatSession.withMessages ms (g s)) →
  patchPlaceholder sid bot f (g <$> l) = g <$> patchPlaceholder sid bot f l.
Proof.
  intros Hid Hmsgs Hcomm. unfold patchPlaceholder.
  rewrite find_fmap_stable by (intros s; unfold hasSessionId; by rewrite Hid).
  destruct (find (hasSessionId sid) l) as [session|]; simpl; [|done].
  rewrite <- !list_fmap_compose. apply list_fmap_ext.
  intros i x _. simpl. rewrite (Hmsgs session). pose proof (Hid x) as Hx.
  repeat case_decide; rewrite ?Hcomm; congruence.
Qed.

Lemma patch_after_title
    (titleBackend : GeminiTitle.Request → GeminiTitle.Answer)
    (request : string * string) sid bot f (st : AppState.t) :
  AppState.setSessions (patchPlaceholder sid bot f) (titleArrives titleBackend request st)
  = titleArrives titleBackend request (AppState.setSessions (patchPlaceholder sid bot f) st).
Proof.
  unfold titleArrives, updateSessionTitle, AppState.setSessions. simpl. f_equal.
  apply patchPlaceholder_fmap.
  - intros s. by destruct (decide _).
  - intros s. by destruct (decide _).
  - intros ms s. simpl. by destruct (decide _).
Qed.

(** X11. A title answer and a streaming callback touch different
    fields: in whichever order the two arrive, the state is the same. *)
Theorem title_and_callback_commute
    (titleBackend : GeminiTitle.Request → GeminiTitle.Answer)
    (request : string * string) (p : Invocation.t * AppState.t) (e : Gemini.Event) :
  deliver (p.1, titleArrives titleBackend request p.2) e
  = ((deliver p e).1, titleArrives titleBackend request (deliver p e).2).
Proof.
  destruct p as [inv st]. destruct e as [chunkText|md];
    cbn [deliver fst snd]; unfold onChunk, onGrounding; cbn [fst snd];
    f_equal; apply patch_after_title.
Qed.

Lemma background_isLoading (b : Background) (st : AppState.t) :
  AppState.isLoading (background b st) = AppState.isLoading st.
Proof. by destruct b. Qed.

Lemma ticks_isLoading (p : Invocation.t * AppState.t) (ts : list Tick) :
  AppState.isLoading (foldl tick p ts).2 = AppState.isLoading p.2.
Proof.
  induction ts as [|t ts IH] using rev_ind; [done|].
  rewrite foldl_snoc. destruct t as [e|b]; simpl.
  - destruct (deliver_flags (foldl tick p ts) e) as (_ & -> & _). done.
  - by rewrite background_isLoading.
Qed.

(** X12. While a call is in flight, clicks on other chats, new chats
    (with an id of their own) and title answers do not disturb it:
    whatever comes between the callbacks, the placeholder shows the
    concatenation of the deltas delivered so far, is marked as thinking
    exactly until the first delta, and the busy flag stays raised. *)
Theorem stream_unaffected_by_background
    (botMsgId : string) (tMsg tUpd : Z) (msgs : list ChatMessage.t)
    (st : AppState.t) (sid : string) (ts : list Tick) :
  holdsSession sid st →
  freshFor botMsgId msgs →
  Forall (sparesId sid) ts →
  ∃ m,
    placeholder sid botMsgId (foldl tick (startOf sid botMsgId tMsg tUpd msgs st) ts).2
    = Some m
    ∧ ChatMessage.content m = concatDeltas (Gemini.deltas (callbacksIn ts))
    ∧ ChatMessage.isThinking m
      = Some (bool_decide (Gemini.deltas (callbacksIn ts) = []))
    ∧ AppState.isLoading (foldl tick (startOf sid botMsgId tMsg tUpd msgs st) ts).2
      = true.
Proof.
  intros Hs Hf Hts.
  destruct (startState_placeholder sid botMsgId tMsg tUpd msgs st Hs) as (m0 & Hm0 & Hfresh).
  rewrite (Hfresh Hf) in Hm0.
  destruct (interleaved_run_tracks (startOf sid botMsgId tMsg tUpd msgs st) ts _
              eq_refl Hm0 Hts) as (_ & Hp).
  eexists. split; [exact Hp|]. split; [|split].
  - simpl. by destruct (Gemini.deltas (callbacksIn ts)).
  - simpl. by destruct (Gemini.deltas (callbacksIn ts)).
  - by rewrite ticks_isLoading.
Qed.

(** X13. The send button is inert while a call is in flight: from the
    start of a call, through any callbacks and other events, a click on
    send changes neither the composer (the typed text and the files
    stay) nor the application, whatever was typed. *)
Theorem no_send_while_in_flight
    (trim : string → string) (backend : Gemini.Request → Gemini.Response)
    (userMsgId : string) (tUser : Z) (botMsgId' : string) (tMsg' tUpd' : Z)
    (botMsgId : string) (tMsg tUpd : Z) (msgs : list ChatMessage.t)
    (st : AppState.t) (sid : string) (ts : list Tick)
    (calls : list Gemini.StreamOptions) (requests : list (string * string))
    (c : Composer.t) :
  sendFromComposer trim backend userMsgId tUser botMsgId' tMsg' tUpd' c
    (World.mk (foldl tick (startOf sid botMsgId tMsg tUpd msgs st) ts).2 calls requests)
  = (c, World.mk (foldl tick (startOf sid botMsgId tMsg tUpd msgs st) ts).2
          calls requests).
Proof.
  unfold sendFromComposer, Composer.handleSend. cbn [World.app].
  rewrite ticks_isLoading. simpl. by rewrite orb_true_r.
Qed.

End InFlight.

(** * The composer *)

Section ComposerFacts.

Lemma filter_index_delete {A} (l : list A) (index n : nat) :
  snd <$> filter (λ p, p.1 ≠ index) (imap (λ i x, (n + i, x)) l)
  = if decide (n ≤ index) then delete (index - n) l else l.
Proof.
  revert n. induction l as [|x l IH]; intros n.
  - by destruct (decide _).
  - rewrite imap_cons, filter_cons.
    rewrite (imap_ext _ (λ i y, (S n + i, y))) by (intros; simpl; f_equal; lia).
    cbn [fst]. specialize (IH (S n)).
    destruct (decide (n + 0 ≠ index)) as [Hne|Heq].
    + rewrite fmap_cons, IH. cbn [snd].
      destruct (decide (n ≤ index)) as [Hle|Hgt].
      * rewrite decide_True by lia.
        replace (index - n) with (S (index - S n)) by lia. done.
      * by rewrite decide_False by lia.
    + rewrite IH. rewrite decide_False by lia. rewrite decide_True by lia.
      by replace (index - n) with 0 by lia.
Qed.

(** [removeAttachment] is the deletion at an index. *)
Lemma removeAttachment_delete (index : nat) (c : Composer.t) :
  Composer.attachments (Composer.removeAttachment index c)
  = delete index (Composer.attachments c)
  ∧ (∀ j, j < index →
       Composer.attachments (Composer.removeAttachment index c) !! j
       = Composer.attachments c !! j)
  ∧ (∀ j, index ≤ j →
       Composer.attachments (Composer.removeAttachment index c) !! j
       = Composer.attachments c !! S j)
  ∧ (length (Composer.attachments c) ≤ index →
     Composer.removeAttachment index c = c)
  ∧ Composer.input (Composer.removeAttachment index c) = Composer.input c.
Proof.
  assert (Composer.attachments (Composer.removeAttachment index c)
          = delete index (Composer.attachments c)) as Heq.
  { pose proof (filter_index_delete (Composer.attachments c) index 0) as Hd.
    rewrite decide_True, Nat.sub_0_r in Hd by lia. exact Hd. }
  split; [exact Heq|]. split; [|split; [|split]].
  - intros j Hj. rewrite Heq. by apply list_lookup_delete_lt.
  - intros j Hj. rewrite Heq. by apply list_lookup_delete_ge.
  - intros Hlen. destruct c as [inp atts interim lis].
    cbn [Composer.attachments] in *. unfold Composer.removeAttachment.
    cbn [Composer.attachments Composer.input Composer.interimTranscript
         Composer.isListening].
    f_equal. etrans; [exact Heq|]. clear Heq.
    revert index Hlen. induction atts as [|a atts IH]; intros index Hlen.
    + by destruct index.
    + destruct index as [|index]; simpl in *; [lia|]. f_equal. apply IH. lia.
  - done.
Qed.

(** X14. Removing the attachment at an index deletes exactly that one:
    the files before and after it stay, in order; an index past the end
    removes nothing; the typed text is not touched. *)
Theorem removeAttachment_deletes_one (index : nat) (c : Composer.t) :
  Composer.attachments (Composer.removeAttachment index c)
  = delete index (Composer.attachments c)
  ∧ (∀ j, j < index →
       Composer.attachments (Composer.removeAttachment index c) !! j
       = Composer.attachments c !! j)
  ∧ (∀ j, index ≤ j →
       Composer.attachments (Composer.removeAttachment index c) !! j
       = Composer.attachments c !! S j)
  ∧ (length (Composer.attachments c) ≤ index →
     Composer.removeAttachment index c = c)
  ∧ Composer.input (Composer.removeAttachment index c) = Composer.input c.
Proof. exact (removeAttachment_delete index c). Qed.

Lemma collect_fold (rs : list Composer.SpeechResult) (a b : string) :
  foldl Composer.collect (a, b) rs
  = (a +:+ concatDeltas
             (Composer.transcript <$> filter (λ r, Composer.isFinal r = true) rs),
     b +:+ concatDeltas
             (Composer.transcript <$> filter (λ r, Composer.isFinal r = false) rs)).
Proof.
  revert a b. induction rs as [|r rs IH]; intros a b.
  - simpl. by rewrite !append_nil_r.
  - simpl. unfold Composer.collect at 2. cbn [fst snd]. rewrite !filter_cons.
    destruct (Composer.isFinal r) eqn:E.
    + rewrite IH. rewrite decide_True by done. rewrite decide_False by done.
      rewrite fmap_cons. cbn [concatDeltas foldr]. by rewrite append_assoc.
    + rewrite IH. rewrite decide_False by done. rewrite decide_True by done.
      rewrite fmap_cons. cbn [concatDeltas foldr]. by rewrite append_assoc.
Qed.

(** X15. Dictation only appends: a speech result leaves the typed text
    as a prefix of the new text and the files as they are. The text
    grows by the final transcripts from [resultIndex] on, in order,
    after one space when the text was non-empty and did not end in a
    space; with no final text it does not change, and the interim
    transcripts are shown instead. *)
Theorem dictation_only_appends (resultIndex : nat) (results : list Composer.SpeechResult)
    (c : Composer.t) :
  Composer.attachments (Composer.onresult resultIndex results c) = Composer.attachments c
  ∧ (∃ suffix, Composer.input (Composer.onresult resultIndex results c)
               = Composer.input c +:+ suffix)
  ∧ match concatDeltas
            (Composer.transcript
               <$> filter (λ r, Composer.isFinal r = true) (drop resultIndex results)) with
    | EmptyString =>
        Composer.input (Composer.onresult resultIndex results c) = Composer.input c
        ∧ Composer.interimTranscript (Composer.onresult resultIndex results c)
          = concatDeltas
              (Composer.transcript
                 <$> filter (λ r, Composer.isFinal r = false) (drop resultIndex results))
    | finalTranscript =>
        Composer.input (Composer.onresult resultIndex results c)
        = Composer.input c
          +:+ (if bool_decide (Composer.input c = EmptyString)
                  || Composer.endsWithSpace (Composer.input c)
               then EmptyString else " ")
          +:+ finalTranscript
        ∧ Composer.interimTranscript (Composer.onresult resultIndex results c)
          = EmptyString
    end.
Proof.
  unfold Composer.onresult. rewrite collect_fold. cbn [fst snd].
  change (EmptyString +:+ ?x) with x.
  destruct (concatDeltas (Composer.transcript <$> filter _ (drop resultIndex results)))
    as [|a r] eqn:E.
  - simpl. split; [done|]. split; [|by split].
    exists EmptyString. by rewrite append_nil_r.
  - cbn [Composer.input Composer.attachments Composer.interimTranscript].
    split; [done|]. split; [by eexists|]. split; [|done].
    destruct (Composer.input c) as [|a' r'].
    + rewrite bool_decide_false by (simpl; lia). by rewrite bool_decide_true.
    + rewrite bool_decide_true by (simpl; lia). rewrite bool_decide_false by done.
      cbn [andb orb]. by destruct (Composer.endsWithSpace (String a' r')).
Qed.

End ComposerFacts.

(** * The history of the image editor *)

Section EditorFacts.
Import ImageEditor.

Lemma push_shape (ns : EditorState) (e : t) :
  historyIndex e < length (history e) →
  pushToHistory ns e
  = mk (current e) (take (S (historyIndex e)) (history e) ++ [ns]) (S (historyIndex e)).
Proof.
  intros Hlt. unfold pushToHistory. rewrite Nat.add_1_r. f_equal.
  rewrite length_app, length_take, Nat.min_l by lia. cbn [length]. lia.
Qed.

Lemma push_lookup_new (ns : EditorState) (h : list EditorState) (i : nat) :
  i < length h → (take (S i) h ++ [ns]) !! S i = Some ns.
Proof.
  intros Hlt. rewrite lookup_app_r by (rewrite length_take; lia).
  rewrite length_take. by replace (S i - S i `min` length h) with 0 by lia.
Qed.

Lemma push_lookup_old (ns : EditorState) (h : list EditorState) (i j : nat) :
  j ≤ i → i < length h → (take (S i) h ++ [ns]) !! j = h !! j.
Proof.
  intros Hj Hlt. rewrite lookup_app_l by (rewrite length_take; lia).
  apply lookup_take_lt. lia.
Qed.

Lemma quarter_rotate (r : Z) : quarter r → quarter (Z.rem (r + 90) 360).
Proof.
  unfold quarter. intros [-> | [-> | [-> | ->]]]; vm_compute; tauto.
Qed.

Lemma wellFormed_index (e : t) : wellFormed e → historyIndex e < length (history e).
Proof. intros [(h & Hh & _) _]. by eapply lookup_lt_Some. Qed.

Lemma push_wellFormed (ns : EditorState) (e : t) :
  historyIndex e < length (history e) →
  Forall (λ h, quarter (rotation h)) (history e) →
  quarter (rotation ns) →
  wellFormed (pushToHistory ns (mk ns (history e) (historyIndex e))).
Proof.
  intros Hlt Hall Hq. rewrite push_shape by done. simpl.
  split; [|split; [done|]].
  - exists ns. split; [by apply push_lookup_new|done].
  - apply Forall_app. split; [by apply Forall_take|by apply Forall_singleton].
Qed.

Lemma step_wellFormed (a : Action) (e : t) :
  wellFormed e → ∃ e', step a e = Some e' ∧ wellFormed e'.
Proof.
  intros Hwf. pose proof (wellFormed_index e Hwf) as Hlt.
  destruct Hwf as ((h & Hh & Hrot & Hasp) & Hq & Hall).
  destruct a as [|ratio|v|v| | |]; simpl.
  - eexists. split; [done|]. apply push_wellFormed; [done|done|].
    simpl. by apply quarter_rotate.
  - eexists. split; [done|]. by apply push_wellFormed.
  - eexists. split; [done|]. split; [by exists h|by split].
  - eexists. split; [done|]. split; [by exists h|by split].
  - unfold handleSliderCommit. rewrite Hh.
    destruct (_ || _); eexists; (split; [done|]).
    + destruct e as [cur hist idx]. by apply (push_wellFormed cur (mk cur hist idx)).
    + split; [by exists h|by split].
  - unfold handleUndo. case_bool_decide.
    + destruct (lookup_lt_is_Some_2 (history e) (historyIndex e - 1)) as [state Hstate];
        [lia|].
      rewrite Hstate. eexists. split; [done|]. split; [by exists state|]. split; [|done].
      simpl. by eapply (proj1 (Forall_lookup _ _) Hall).
    + eexists. split; [done|]. split; [by exists h|by split].
  - unfold handleRedo. case_bool_decide.
    + destruct (lookup_lt_is_Some_2 (history e) (historyIndex e + 1)) as [state Hstate];
        [lia|].
      rewrite Hstate. eexists. split; [done|]. split; [by exists state|]. split; [|done].
      simpl. by eapply (proj1 (Forall_lookup _ _) Hall).
    + eexists. split; [done|]. split; [by exists h|by split].
Qed.

(** X16. The handlers of the editor never read past its history: in
    the state the editor opens with, and after any sequence of
    rotations, ratio changes, slider moves and commits, undos and
    redos, the index points at an entry of the history that has the
    rotation and ratio on screen, and every rotation is 0, 90, 180 or
    270; no handler throws. *)
Theorem editor_history_stays_well_formed (actions : list Action) :
  ∃ e, run actions initial = Some e ∧ wellFormed e.
Proof.
  induction actions as [|a actions IH] using rev_ind.
  - exists initial. split; [done|]. split; [|split].
    + by eexists.
    + by left.
    + repeat constructor.
  - destruct IH as (e & Hrun & Hwf).
    destruct (step_wellFormed a e Hwf) as (e' & Hstep & Hwf').
    exists e'. split; [|done].
    unfold run in *. by rewrite foldl_snoc, Hrun.
Qed.

(** X17. Undo and redo are inverse to each other, and undo takes back
    an edit: with nothing uncommitted on screen, redo after undo and
    undo after redo give the state back whenever the first of the two
    has something to do, and undo after a rotation or a change of ratio
    shows the state from before it, from where redo repeats the edit. *)
Theorem undo_redo_round_trip (e : t) :
  committed e →
  (0 < historyIndex e → handleUndo e ≫= handleRedo = Some e)
  ∧ (historyIndex e + 1 < length (history e) → handleRedo e ≫= handleUndo = Some e)
  ∧ handleUndo (rotate e)
    = Some (mk (current e) (history (rotate e)) (historyIndex e))
  ∧ handleUndo (rotate e) ≫= handleRedo = Some (rotate e)
  ∧ (∀ ratio,
       handleUndo (changeAspectRatio ratio e)
       = Some (mk (current e) (history (changeAspectRatio ratio e)) (historyIndex e))
       ∧ handleUndo (changeAspectRatio ratio e) ≫= handleRedo
         = Some (changeAspectRatio ratio e)).
Proof.
  intros Hcom. unfold committed in Hcom.
  pose proof (lookup_lt_Some _ _ _ Hcom) as Hlt.
  assert (∀ ns,
    handleUndo (pushToHistory ns (mk ns (history e) (historyIndex e)))
    = Some (mk (current e)
              (history (pushToHistory ns (mk ns (history e) (historyIndex e))))
              (historyIndex e))
    ∧ handleUndo (pushToHistory ns (mk ns (history e) (historyIndex e))) ≫= handleRedo
      = Some (pushToHistory ns (mk ns (history e) (historyIndex e)))) as Hpush.
  { intros ns. rewrite (push_shape ns (mk ns (history e) (historyIndex e))) by done.
    cbn [current history historyIndex].
    assert (handleUndo
              (mk ns (take (S (historyIndex e)) (history e) ++ [ns]) (S (historyIndex e)))
            = Some (mk (current e) (take (S (historyIndex e)) (history e) ++ [ns])
                      (historyIndex e))) as Hundo.
    { unfold handleUndo. cbn [current history historyIndex].
      rewrite bool_decide_true by lia. rewrite Nat.sub_1_r. cbn [Nat.pred].
      rewrite push_lookup_old by (done || lia). by rewrite Hcom. }
    split; [exact Hundo|]. rewrite Hundo. cbn [mbind option_bind].
    unfold handleRedo. cbn [current history historyIndex].
    rewrite bool_decide_true
      by (rewrite length_app, length_take, Nat.min_l by lia; cbn [length]; lia).
    rewrite Nat.add_1_r, push_lookup_new by done. done. }
  split; [|split; [|split; [|split]]].
  - intros Hpos. unfold handleUndo. rewrite bool_decide_true by done.
    destruct (lookup_lt_is_Some_2 (history e) (historyIndex e - 1)) as [state Hstate];
      [lia|].
    rewrite Hstate. cbn [mbind option_bind]. unfold handleRedo.
    cbn [current history historyIndex].
    rewrite bool_decide_true by lia.
    replace (historyIndex e - 1 + 1) with (historyIndex e) by lia.
    rewrite Hcom. by destruct e.
  - intros Hnext. unfold handleRedo. rewrite bool_decide_true by lia.
    destruct (lookup_lt_is_Some_2 (history e) (historyIndex e + 1)) as [state Hstate];
      [lia|].
    rewrite Hstate. cbn [mbind option_bind]. unfold handleUndo.
    cbn [current history historyIndex].
    rewrite bool_decide_true by lia.
    replace (historyIndex e + 1 - 1) with (historyIndex e) by lia.
    rewrite Hcom. by destruct e.
  - apply Hpush.
  - apply Hpush.
  - intros ratio. apply Hpush.
Qed.

(** X18. A new edit discards what could be redone: after a rotation or
    a change of ratio, redo does nothing, the history is the entries up
    to the old index followed by the new state, and the entries that
    were after the old index are gone. *)
Theorem new_edit_discards_redo (e : t) :
  historyIndex e < length (history e) →
  (handleRedo (rotate e) = Some (rotate e)
   ∧ history (rotate e)
     = take (S (historyIndex e)) (history e) ++ [current (rotate e)]
   ∧ historyIndex (rotate e) = S (historyIndex e))
  ∧ (∀ ratio,
       handleRedo (changeAspectRatio ratio e) = Some (changeAspectRatio ratio e)
       ∧ history (changeAspectRatio ratio e)
         = take (S (historyIndex e)) (history e)
           ++ [current (changeAspectRatio ratio e)]
       ∧ historyIndex (changeAspectRatio ratio e) = S (historyIndex e)).
Proof.
  intros Hlt.
  assert (∀ ns,
    let e1 := pushToHistory ns (mk ns (history e) (historyIndex e)) in
    handleRedo e1 = Some e1
    ∧ history e1 = take (S (historyIndex e)) (history e) ++ [current e1]
    ∧ historyIndex e1 = S (historyIndex e)) as Hpush.
  { intros ns. cbv zeta.
    rewrite (push_shape ns (mk ns (history e) (historyIndex e))) by done.
    cbn [current history historyIndex]. split; [|done].
    unfold handleRedo. cbn [current history historyIndex].
    rewrite bool_decide_false; [done|].
    rewrite length_app, length_take, Nat.min_l by lia. cbn [length]. lia. }
  split; [apply Hpush|]. intros ratio. apply Hpush.
Qed.

(** X19. Four rotations bring the picture back: from a state of the
    editor, rotating four times leaves the rotation, the sliders and
    the ratio on screen as they were, and each single rotation adds 90
    degrees modulo 360. *)
Theorem four_rotations_are_identity (e : t) :
  quarter (rotation (current e)) →
  current (rotate (rotate (rotate (rotate e)))) = current e
  ∧ (rotation (current (rotate e)) - rotation (current e) = 90
     ∨ rotation (current (rotate e)) - rotation (current e) = -270)%Z.
Proof.
  intros Hq.
  assert (∀ x, current (rotate x)
               = mkState (Z.rem (rotation (current x) + 90) 360)
                   (brightness (current x)) (contrast (current x))
                   (aspectRatio (current x))) as Hrot by done.
  rewrite !Hrot. cbn [rotation brightness contrast aspectRatio].
  destruct (current e) as [r b c a]. cbn [rotation brightness contrast aspectRatio] in *.
  destruct Hq as [-> | [-> | [-> | ->]]]; split;
    first [reflexivity | by left | by right].
Qed.

End EditorFacts.

(** * The sources of a grounded answer *)

Section Sources.
Import GroundingSources.

Lemma firstOccurrences_ext (seen seen' : list (option string)) (l : list GroundingChunk.t) :
  (∀ u, u ∈ seen ↔ u ∈ seen') →
  firstOccurrences seen l = firstOccurrences seen' l.
Proof.
  revert seen seen'. induction l as [|c l IH]; intros seen seen' Hiff; [done|].
  simpl. destruct (decide (uriOf c ∈ seen)) as [Hin|Hout].
  - rewrite decide_True by by apply Hiff. by apply IH.
  - rewrite decide_False by (intros ?; by apply Hout, Hiff). f_equal.
    apply IH. intros u. rewrite !elem_of_cons. by rewrite Hiff.
Qed.

Lemma findIndex_first (pre l : list GroundingChunk.t) (c : GroundingChunk.t) :
  findIndex (sameUri c) (pre ++ c :: l) = Some (length pre)
  ↔ uriOf c ∉ uriOf <$> pre.
Proof.
  unfold findIndex. split.
  - destruct (list_find (sameUri c) (pre ++ c :: l)) as [[i y]|] eqn:E; [|done].
    intros [= ->]. apply list_find_Some in E as (_ & _ & Hleast).
    intros Hin. apply list_elem_of_fmap in Hin as (y' & Hy' & Hin).
    apply list_elem_of_lookup in Hin as [j Hj].
    apply (Hleast j y').
    + by apply lookup_app_l_Some.
    + by eapply lookup_lt_Some.
    + unfold sameUri. done.
  - intros Hout.
    assert (list_find (sameUri c) pre = None) as Hnone.
    { apply list_find_None, Forall_forall. intros y Hy Hsame. apply Hout.
      apply list_elem_of_fmap. exists y. split; [by rewrite Hsame|done]. }
    rewrite list_find_app_r by done. simpl.
    rewrite decide_True by done. simpl. done.
Qed.

Lemma uniqueChunks_from (pre l : list GroundingChunk.t) :
  snd <$> filter (λ p, findIndex (sameUri p.2) (pre ++ l) = Some p.1)
            (imap (λ i c, (length pre + i, c)) l)
  = firstOccurrences (uriOf <$> pre) l.
Proof.
  revert pre. induction l as [|c l IH]; intros pre; [done|].
  rewrite imap_cons, filter_cons. cbn [fst snd firstOccurrences].
  rewrite (imap_ext _ (λ i c', (length (pre ++ [c]) + i, c')))
    by (intros; simpl; rewrite length_app; simpl; f_equal; lia).
  pose proof (IH (pre ++ [c])) as IH'. rewrite <- app_assoc in IH'.
  cbn [app] in IH'. rewrite Nat.add_0_r.
  destruct (decide (uriOf c ∈ uriOf <$> pre)) as [Hin|Hout].
  - rewrite decide_False by (intros Hf; by apply findIndex_first in Hf).
    rewrite IH'. apply firstOccurrences_ext. intros u. rewrite fmap_app, elem_of_app.
    simpl. rewrite list_elem_of_singleton. split; [|tauto].
    intros [?| ->]; done.
  - rewrite decide_True by by apply findIndex_first.
    rewrite fmap_cons, IH'. cbn [snd]. f_equal.
    apply firstOccurrences_ext. intros u. rewrite fmap_app, elem_of_app, elem_of_cons.
    simpl. rewrite list_elem_of_singleton. tauto.
Qed.

Lemma uniqueChunks_firstOccurrences (l : list GroundingChunk.t) :
  uniqueChunks l = firstOccurrences [] l.
Proof. exact (uniqueChunks_from [] l). Qed.

Lemma firstOccurrences_elem (seen : list (option string)) (l : list GroundingChunk.t) c :
  c ∈ firstOccurrences seen l → c ∈ l ∧ uriOf c ∉ seen.
Proof.
  revert seen. induction l as [|x l IH]; intros seen; simpl.
  - by intros ?%elem_of_nil.
  - destruct (decide (uriOf x ∈ seen)) as [Hin|Hout].
    + intros Hc. destruct (IH _ Hc) as [? ?]. split; [by right|done].
    + intros [->|Hc]%elem_of_cons.
      * split; [by left|done].
      * destruct (IH _ Hc) as [? Hn]. split; [by right|].
        intros ?. apply Hn. by right.
Qed.

Lemma firstOccurrences_NoDup (seen : list (option string)) (l : list GroundingChunk.t) :
  NoDup (uriOf <$> firstOccurrences seen l).
Proof.
  revert seen. induction l as [|x l IH]; intros seen; simpl; [constructor|].
  destruct (decide (uriOf x ∈ seen)); [apply IH|].
  rewrite fmap_cons. constructor; [|apply IH].
  intros Hin. apply list_elem_of_fmap in Hin as (c & Hc & Hin).
  apply firstOccurrences_elem in Hin as [_ Hn]. apply Hn. rewrite Hc. by left.
Qed.

Lemma firstOccurrences_covers (seen : list (option string)) (l : list GroundingChunk.t) c :
  c ∈ l → uriOf c ∈ seen ∨ ∃ c', c' ∈ firstOccurrences seen l ∧ uriOf c' = uriOf c.
Proof.
  revert seen. induction l as [|x l IH]; intros seen; simpl.
  - by intros ?%elem_of_nil.
  - intros [->|Hc]%elem_of_cons.
    + destruct (decide (uriOf x ∈ seen)); [by left|].
      right. exists x. split; [by left|done].
    + destruct (decide (uriOf x ∈ seen)); [by apply IH|].
      destruct (IH (uriOf x :: seen) Hc) as [[Heq|Hin]%elem_of_cons|(c' & Hc' & Heq)].
      * right. exists x. split; [by left|done].
      * by left.
      * right. exists c'. split; [by right|done].
Qed.

Lemma firstOccurrences_sublist (seen : list (option string)) (l : list GroundingChunk.t) :
  firstOccurrences seen l `sublist_of` l.
Proof.
  revert seen. induction l as [|x l IH]; intros seen; simpl; [done|].
  destruct (decide _); [by apply sublist_cons|by apply sublist_skip].
Qed.

Lemma firstOccurrences_idemp (seen : list (option string)) (l : list GroundingChunk.t) :
  firstOccurrences seen (firstOccurrences seen l) = firstOccurrences seen l.
Proof.
  revert seen. induction l as [|x l IH]; intros seen; simpl; [done|].
  destruct (decide (uriOf x ∈ seen)) as [Hin|Hout]; [apply IH|].
  simpl. rewrite decide_False by done. by rewrite IH.
Qed.

Lemma firstOccurrences_find (seen : list (option string)) (l : list GroundingChunk.t)
    (u : option string) :
  u ∉ seen →
  find (λ c, uriOf c = u) (firstOccurrences seen l) = find (λ c, uriOf c = u) l.
Proof.
  revert seen. induction l as [|x l IH]; intros seen Hu; simpl; [done|].
  destruct (decide (uriOf x ∈ seen)) as [Hin|Hout].
  - rewrite (find_cons_other _ x l) by (intros <-; done). by apply IH.
  - destruct (decide (uriOf x = u)) as [Heq|Hne].
    + by rewrite !find_cons_holds.
    + rewrite !find_cons_other by done. apply IH.
      intros [?|?]%elem_of_cons; [by apply Hne|done].
Qed.

(** X20. The list of sources shows every address once: the chunks kept
    have pairwise different addresses, every address of the answer is
    among them, the chunk kept for an address is the first one of the
    answer that has it, the chunks kept are in the order of the answer,
    and filtering again changes nothing. A chunk without a web entry
    counts as one address of its own. *)
Theorem sources_are_deduplicated (chunks : list GroundingChunk.t) :
  NoDup (uriOf <$> uniqueChunks chunks)
  ∧ (∀ c, c ∈ chunks → ∃ c', c' ∈ uniqueChunks chunks ∧ uriOf c' = uriOf c)
  ∧ (∀ u, find (λ c, uriOf c = u) (uniqueChunks chunks)
          = find (λ c, uriOf c = u) chunks)
  ∧ uniqueChunks chunks `sublist_of` chunks
  ∧ uniqueChunks (uniqueChunks chunks) = uniqueChunks chunks.
Proof.
  rewrite !uniqueChunks_firstOccurrences.
  split; [apply firstOccurrences_NoDup|]. split; [|split; [|split]].
  - intros c Hc. destruct (firstOccurrences_covers [] chunks c Hc) as [Hin|?]; [|done].
    by apply elem_of_nil in Hin.
  - intros u. apply firstOccurrences_find. apply not_elem_of_nil.
  - apply firstOccurrences_sublist.
  - apply firstOccurrences_idemp.
Qed.

End Sources.

(** * The sidebar *)

Section Sidebar.




End Sidebar.

(** * The further properties at concrete inputs *)

Lemma generateResponse_writes_one_reply_witness :
  length (AppState.sessions
            (World.app (generateResponse brokenBackend "b1" 12 13 [hiMessage] [] "hi"
                          firstVisit)))
  = length (AppState.sessions (World.app firstVisit)).
Proof.
  destruct (generateResponse_writes_one_reply brokenBackend "b1" 12 13 [hiMessage] []
              "hi" firstVisit "s1" firstSession) as (_ & Hlen & _).
  - reflexivity.
  - reflexivity.
  - repeat constructor. by intros [=].
  - exact Hlen.
Defined.

Lemma handleSendMessage_appends_exchange_witness :
  World.titleRequests
    (handleSendMessage helloBackend "u1" 11 "b1" 12 13 "hi" [] firstVisit)
  = World.titleRequests firstVisit
    ++ (if bool_decide (length (ChatSession.messages firstSession) = 0)
        then [(ChatSession.id firstSession, titlePrompt "hi")] else []).
Proof.
  destruct (handleSendMessage_appends_exchange helloBackend "u1" 11 "b1" 12 13 "hi" []
              firstVisit "s1" firstSession) as (_ & _ & Htitle & _).
  - reflexivity.
  - reflexivity.
  - constructor.
  - by intros [=].
  - exact Htitle.
Defined.


Lemma edit_without_target_is_noop_witness :
  handleEditMessage helloBackend 20 "b2" 21 22 "unknown" "hey" afterHello = afterHello.
Proof.
  apply (edit_without_target_is_noop helloBackend 20 "b2" 21 22 "unknown" "hey" afterHello).
  right. right. exists helloSession. split; [reflexivity|].
  repeat constructor; by intros [=].
Defined.

Lemma grounding_is_last_write_wins_witness :
  ∃ m, placeholder "s1" "b1"
         (World.app (generateResponse groundedBackend "b1" 12 13 [hiMessage] [] "hi"
                       firstVisit))
       = Some m
       ∧ ChatMessage.groundingMetadata m
         = last (omap Gemini.metadata
                   (Gemini.chunks
                      (groundedBackend
                         (Gemini.buildRequest
                            (streamOptions (World.app firstVisit) [] "hi"))))).
Proof.
  apply (grounding_is_last_write_wins groundedBackend "b1" 12 13 [hiMessage] [] "hi"
           firstVisit "s1").
  - reflexivity.
  - by eexists.
  - repeat constructor. by intros [=].
Defined.

Example grounding_is_last_write_wins_value :
  last (omap Gemini.metadata
          (Gemini.chunks
             (groundedBackend
                (Gemini.buildRequest (streamOptions (World.app firstVisit) [] "hi")))))
  = Some sourcesTwo.
Proof. reflexivity. Qed.

Lemma reasoning_mark_matches_budget_witness :
  ∃ m b,
    placeholder "s1" "b1"
      (World.app (generateResponse helloBackend "b1" 12 13 [hiMessage] [] "hi" firstVisit))
    = Some m
    ∧ ChatMessage.isReasoning m = Some b
    ∧ (b = true
       ↔ Gemini.thinkingConfig
           (Gemini.buildRequest (streamOptions (World.app firstVisit) [] "hi"))
         = Some (Gemini.mkThinking 16000))
    ∧ (b = true
       ↔ AppState.currentModel (World.app firstVisit) = PRO
         ∧ AppState.enableThinking (World.app firstVisit) = true).
Proof.
  apply (reasoning_mark_matches_budget helloBackend "b1" 12 13 [hiMessage] [] "hi"
           firstVisit "s1").
  - reflexivity.
  - by eexists.
  - repeat constructor. by intros [=].
Defined.

Lemma stream_unaffected_by_background_witness :
  ∃ m,
    placeholder "s1" "b1"
      (foldl tick (startOf "s1" "b1" 12 13 [hiMessage] (World.app firstVisit)) busyTicks).2
    = Some m
    ∧ ChatMessage.content m = concatDeltas (Gemini.deltas (callbacksIn busyTicks))
    ∧ ChatMessage.isThinking m
      = Some (bool_decide (Gemini.deltas (callbacksIn busyTicks) = []))
    ∧ AppState.isLoading
        (foldl tick (startOf "s1" "b1" 12 13 [hiMessage] (World.app firstVisit))
           busyTicks).2
      = true.
Proof.
  apply (stream_unaffected_by_background "b1" 12 13 [hiMessage] (World.app firstVisit)
           "s1" busyTicks).
  - by eexists.
  - repeat constructor. by intros [=].
  - repeat constructor. by intros [=].
Defined.

Example busyTicks_text :
  concatDeltas (Gemini.deltas (callbacksIn busyTicks)) = "Hello".
Proof. reflexivity. Qed.

Lemma undo_redo_round_trip_witness :
  ImageEditor.handleUndo (ImageEditor.rotate ImageEditor.initial)
  = Some (ImageEditor.mk (ImageEditor.current ImageEditor.initial)
            (ImageEditor.history (ImageEditor.rotate ImageEditor.initial))
            (ImageEditor.historyIndex ImageEditor.initial)).
Proof.
  destruct (undo_redo_round_trip ImageEditor.initial) as (_ & _ & Hundo & _).
  - reflexivity.
  - exact Hundo.
Defined.

Lemma new_edit_discards_redo_witness :
  ImageEditor.handleRedo (ImageEditor.rotate ImageEditor.initial)
  = Some (ImageEditor.rotate ImageEditor.initial).
Proof.
  destruct (new_edit_discards_redo ImageEditor.initial) as ((Hredo & _) & _).
  - simpl. lia.
  - exact Hredo.
Defined.

Lemma four_rotations_are_identity_witness :
  ImageEditor.current
    (ImageEditor.rotate
       (ImageEditor.rotate (ImageEditor.rotate (ImageEditor.rotate ImageEditor.initial))))
  = ImageEditor.current ImageEditor.initial.
Proof.
  destruct (four_rotations_are_identity ImageEditor.initial) as (Hfour & _).
  - by left.
  - exact Hfour.
Defined.

(** * Sending twice, and the context of the next turn *)

Section Conversation.
Variable backend : Gemini.Request → Gemini.Response.

(** X22. A click on send right after a click on send does nothing:
    whatever the first click did (a send, which empties the composer
    and raises nothing it could trip on, or nothing at all), the second
    leaves the composer and the application as the first left them.
    [trim] is any function that maps the empty string to itself. *)
Theorem second_click_on_send_is_inert
    (trim : string → string)
    (userMsgId : string) (tUser : Z) (botMsgId : string) (tMsg tUpd : Z)
    (userMsgId' : string) (tUser' : Z) (botMsgId' : string) (tMsg' tUpd' : Z)
    (c : Composer.t) (w : World.t) :
  trim EmptyString = EmptyString →
  sendFromComposer trim backend userMsgId' tUser' botMsgId' tMsg' tUpd'
    (sendFromComposer trim backend userMsgId tUser botMsgId tMsg tUpd c w).1
    (sendFromComposer trim backend userMsgId tUser botMsgId tMsg tUpd c w).2
  = sendFromComposer trim backend userMsgId tUser botMsgId tMsg tUpd c w.
Proof.
  intros Htrim. unfold sendFromComposer at 2 3 4. unfold Composer.handleSend.
  destruct ((bool_decide (trim (Composer.input c) = EmptyString)
             && bool_decide (length (Composer.attachments c) = 0))
            || AppState.isLoading (World.app w)) eqn:E; cbn [fst snd].
  - unfold sendFromComposer, Composer.handleSend. by rewrite E.
  - unfold sendFromComposer, Composer.handleSend.
    cbn [Composer.input Composer.attachments]. rewrite Htrim.
    rewrite !bool_decide_true by done. done.
Qed.

Lemma settle_settings (o : Gemini.Outcome) (p : Invocation.t * AppState.t) :
  AppState.currentSessionId (settle o p) = AppState.currentSessionId p.2
  ∧ AppState.currentModel (settle o p) = AppState.currentModel p.2
  ∧ AppState.enableSearch (settle o p) = AppState.enableSearch p.2
  ∧ AppState.enableThinking (settle o p) = AppState.enableThinking p.2.
Proof. by destruct o. Qed.

Lemma generateResponse_current botMsgId tMsg tUpd msgs hist txt w :
  AppState.currentSessionId
    (World.app (generateResponse backend botMsgId tMsg tUpd msgs hist txt w))
  = AppState.currentSessionId (World.app w).
Proof.
  unfold generateResponse.
  destruct (start botMsgId tMsg tUpd msgs (World.app w)) as [p|] eqn:E; [|done].
  cbn [World.app].
  assert (AppState.currentSessionId p.2 = AppState.currentSessionId (World.app w)) as Hp.
  { unfold start in E. destruct (truthy _); [|done]. by injection E as <-. }
  destruct (run_flags p (Gemini.streamGeminiResponse
                           (streamOptions (World.app w) hist txt) backend).1)
    as [Hc _].
  destruct (settle_settings
              (Gemini.streamGeminiResponse (streamOptions (World.app w) hist txt) backend).2
              (foldl deliver p
                 (Gemini.streamGeminiResponse
                    (streamOptions (World.app w) hist txt) backend).1)) as (-> & _).
  by rewrite Hc.
Qed.

Lemma run_settings (p : Invocation.t * AppState.t) (evs : list Gemini.Event) :
  AppState.currentModel (foldl deliver p evs).2 = AppState.currentModel p.2
  ∧ AppState.enableSearch (foldl deliver p evs).2 = AppState.enableSearch p.2
  ∧ AppState.enableThinking (foldl deliver p evs).2 = AppState.enableThinking p.2.
Proof.
  induction evs as [|e evs IH] using rev_ind; [done|].
  rewrite foldl_snoc.
  destruct (deliver_flags (foldl deliver p evs) e) as (_ & _ & -> & -> & ->).
  exact IH.
Qed.

Lemma generateResponse_settings botMsgId tMsg tUpd msgs hist txt w :
  AppState.currentModel
    (World.app (generateResponse backend botMsgId tMsg tUpd msgs hist txt w))
  = AppState.currentModel (World.app w)
  ∧ AppState.enableSearch
      (World.app (generateResponse backend botMsgId tMsg tUpd msgs hist txt w))
    = AppState.enableSearch (World.app w)
  ∧ AppState.enableThinking
      (World.app (generateResponse backend botMsgId tMsg tUpd msgs hist txt w))
    = AppState.enableThinking (World.app w).
Proof.
  unfold generateResponse.
  destruct (start botMsgId tMsg tUpd msgs (World.app w)) as [p|] eqn:E; [|done].
  cbn [World.app].
  assert (AppState.currentModel p.2 = AppState.currentModel (World.app w)
          ∧ AppState.enableSearch p.2 = AppState.enableSearch (World.app w)
          ∧ AppState.enableThinking p.2 = AppState.enableThinking (World.app w))
    as (H1 & H2 & H3).
  { unfold start in E. destruct (truthy _); [|done]. by injection E as <-. }
  destruct (settle_settings
              (Gemini.streamGeminiResponse (streamOptions (World.app w) hist txt) backend).2
              (foldl deliver p
                 (Gemini.streamGeminiResponse
                    (streamOptions (World.app w) hist txt) backend).1))
    as (_ & -> & -> & ->).
  destruct (run_settings p
              (Gemini.streamGeminiResponse
                 (streamOptions (World.app w) hist txt) backend).1) as (-> & -> & ->).
  done.
Qed.

Lemma handleSendMessage_current userMsgId tUser botMsgId tMsg tUpd text files w :
  AppState.currentSessionId
    (World.app (handleSendMessage backend userMsgId tUser botMsgId tMsg tUpd text files w))
  = AppState.currentSessionId (World.app w).
Proof.
  unfold handleSendMessage. destruct (currentSession (World.app w)); [|done].
  case_bool_decide; by rewrite generateResponse_current.
Qed.

(** X23. The context grows with the conversation: after one send has
    been answered, the request of the next send in the same chat
    carries, in order, the old messages, the first user message, the
    first reply with its text as streamed (or the error notice), and
    last the new user turn. *)
Theorem next_turn_carries_the_exchange
    (userMsgId : string) (tUser : Z) (botMsgId : string) (tMsg tUpd : Z) (text : string)
    (userMsgId' : string) (tUser' : Z) (botMsgId' : string) (tMsg' tUpd' : Z)
    (text' : string) (w : World.t) (sid : string) (cs : ChatSession.t) :
  truthy (AppState.currentSessionId (World.app w)) = Some sid →
  find (hasSessionId sid) (AppState.sessions (World.app w)) = Some cs →
  freshFor botMsgId (ChatSession.messages cs) →
  botMsgId ≠ userMsgId →
  last (Gemini.buildRequest
          <$> World.adapterCalls
                (handleSendMessage backend userMsgId' tUser' botMsgId' tMsg' tUpd' text' []
                   (handleSendMessage backend userMsgId tUser botMsgId tMsg tUpd text []
                      w)))
  = Some (Gemini.mkRequest
            (modelName (AppState.currentModel (World.app w)))
            (Gemini.formatHistory (ChatSession.messages cs)
             ++ [Gemini.mkContent User [text];
                 Gemini.mkContent Model
                   [ChatMessage.content
                      (replyOf (outcomeOf backend w (ChatSession.messages cs) text)
                         (callbacksOf backend w (ChatSession.messages cs) text)
                         (placeholderAtStart botMsgId tMsg (World.app w)))];
                 Gemini.mkContent User [text']])
            (if AppState.enableSearch (World.app w)
             then Some [Gemini.googleSearch] else None)
            (Gemini.thinkingConfigOf (AppState.currentModel (World.app w))
               (AppState.enableThinking (World.app w)))).
Proof.
  intros Hc Hs Hf Hne.
  destruct (handleSendMessage_session_after backend userMsgId tUser botMsgId tMsg tUpd
              text [] w sid cs Hc Hs Hf Hne) as (Hfind & _ & _ & _).
  set (w1 := handleSendMessage backend userMsgId tUser botMsgId tMsg tUpd text [] w) in *.
  assert (truthy (AppState.currentSessionId (World.app w1)) = Some sid) as Hc1.
  { subst w1. by rewrite handleSendMessage_current. }
  assert (AppState.currentModel (World.app w1) = AppState.currentModel (World.app w)
          ∧ AppState.enableSearch (World.app w1) = AppState.enableSearch (World.app w)
          ∧ AppState.enableThinking (World.app w1) = AppState.enableThinking (World.app w))
    as (Hmodel & Hsearch & Hthink).
  { subst w1. unfold handleSendMessage.
    rewrite (currentSession_found _ _ _ Hc Hs).
    case_bool_decide; exact (generateResponse_settings _ _ _ _ _ _ _). }
  unfold handleSendMessage at 1. fold w1.
  rewrite (currentSession_found _ _ _ Hc1 Hfind).
  cbn [ChatSession.messages].
  rewrite bool_decide_false by (rewrite length_app; simpl; lia).
  rewrite (generateResponse_calls backend _ _ _ _ _ _ _ _ Hc1).
  rewrite fmap_app.
  change (Gemini.buildRequest <$> [?x]) with [Gemini.buildRequest x].
  rewrite last_snoc. f_equal.
  unfold Gemini.buildRequest, streamOptions, displayContentOf. simpl.
  rewrite Hmodel, Hsearch, Hthink. f_equal.
  - unfold Gemini.formatHistory. rewrite !fmap_app. rewrite <- app_assoc. simpl.
    do 3 f_equal. by destruct (outcomeOf backend w (ChatSession.messages cs) text).
  - by destruct (AppState.enableSearch (World.app w)).
Qed.

End Conversation.

Section ComposerFiles.


End ComposerFiles.

Section EditorSliders.
Import ImageEditor.

(** X25. A slider change enters the history once, on release, and can
    be undone: releasing a slider that was not moved leaves the history
    as it is; after a move to a new brightness the release adds one
    entry, and undo then shows the picture from before the move. *)
Theorem slider_change_is_committed_once (v : Z) (e : t) :
  committed e →
  handleSliderCommit e = Some e
  ∧ (v ≠ brightness (current e) →
     ∃ e1,
       handleSliderCommit (setBrightness v e) = Some e1
       ∧ history e1
         = take (S (historyIndex e)) (history e) ++ [current (setBrightness v e)]
       ∧ handleSliderCommit e1 = Some e1
       ∧ handleUndo e1 = Some (mk (current e) (history e1) (historyIndex e))).
Proof.
  intros Hcom. unfold committed in Hcom.
  pose proof (lookup_lt_Some _ _ _ Hcom) as Hlt. split.
  - unfold handleSliderCommit. rewrite Hcom.
    rewrite !bool_decide_false by (intros Hne; by apply Hne). done.
  - intros Hv. eexists. split; [|split; [|split]].
    + unfold handleSliderCommit. cbn [setBrightness history historyIndex current].
      rewrite Hcom. cbn [brightness].
      rewrite (bool_decide_true (brightness (current e) ≠ v)) by congruence.
      cbn [orb]. reflexivity.
    + rewrite push_shape by done. reflexivity.
    + rewrite push_shape by done. unfold handleSliderCommit.
      cbn [setBrightness history historyIndex current].
      rewrite push_lookup_new by done.
      rewrite !bool_decide_false by (intros Hne; by apply Hne). done.
    + rewrite push_shape by done. unfold handleUndo.
      cbn [setBrightness history historyIndex current].
      rewrite bool_decide_true by lia. rewrite Nat.sub_1_r. cbn [Nat.pred].
      rewrite push_lookup_old by (done || lia). by rewrite Hcom.
Qed.

End EditorSliders.

Lemma second_click_on_send_is_inert_witness :
  sendFromComposer (λ s, s) helloBackend "u2" 21 "b2" 22 23
    (sendFromComposer (λ s, s) helloBackend "u1" 11 "b1" 12 13
       (Composer.mk "hi" [] EmptyString false) firstVisit).1
    (sendFromComposer (λ s, s) helloBackend "u1" 11 "b1" 12 13
       (Composer.mk "hi" [] EmptyString false) firstVisit).2
  = sendFromComposer (λ s, s) helloBackend "u1" 11 "b1" 12 13
      (Composer.mk "hi" [] EmptyString false) firstVisit.
Proof.
  apply (second_click_on_send_is_inert helloBackend (λ s, s)
           "u1" 11 "b1" 12 13 "u2" 21 "b2" 22 23).
  reflexivity.
Defined.

Lemma next_turn_carries_the_exchange_witness :
  last (Gemini.buildRequest
          <$> World.adapterCalls
                (handleSendMessage helloBackend "u2" 21 "b2" 22 23 "more" []
                   (handleSendMessage helloBackend "u1" 11 "b1" 12 13 "hi" []
                      firstVisit)))
  = Some (Gemini.mkRequest
            (modelName (AppState.currentModel (World.app firstVisit)))
            (Gemini.formatHistory (ChatSession.messages firstSession)
             ++ [Gemini.mkContent User ["hi"];
                 Gemini.mkContent Model
                   [ChatMessage.content
                      (replyOf
                         (outcomeOf helloBackend firstVisit
                            (ChatSession.messages firstSession) "hi")
                         (callbacksOf helloBackend firstVisit
                            (ChatSession.messages firstSession) "hi")
                         (placeholderAtStart "b1" 12 (World.app firstVisit)))];
                 Gemini.mkContent User ["more"]])
            (if AppState.enableSearch (World.app firstVisit)
             then Some [Gemini.googleSearch] else None)
            (Gemini.thinkingConfigOf (AppState.currentModel (World.app firstVisit))
               (AppState.enableThinking (World.app firstVisit)))).
Proof.
  apply (next_turn_carries_the_exchange helloBackend "u1" 11 "b1" 12 13 "hi"
           "u2" 21 "b2" 22 23 "more" firstVisit "s1" firstSession).
  - reflexivity.
  - reflexivity.
  - constructor.
  - by intros [=].
Defined.

Example next_turn_contents :
  Gemini.contents
    <$> last (Gemini.buildRequest
                <$> World.adapterCalls
                      (handleSendMessage helloBackend "u2" 21 "b2" 22 23 "more" []
                         (handleSendMessage helloBackend "u1" 11 "b1" 12 13 "hi" []
                            firstVisit)))
  = Some [Gemini.mkContent User ["hi"]; Gemini.mkContent Model ["Hello"];
          Gemini.mkContent User ["more"]].
Proof. reflexivity. Qed.

Lemma slider_change_is_committed_once_witness :
  ImageEditor.handleSliderCommit ImageEditor.initial = Some ImageEditor.initial.
Proof.
  destruct (slider_change_is_committed_once 120 ImageEditor.initial) as (Hsame & _).
  - reflexivity.
  - exact Hsame.
Defined.
